(** * Ecotracks dashboard ([app.py]): a shallow embedding and its properties

    The script holds three literal tables (regional emissions, general
    indicators, emission factors), derives a few columns from them, and
    renders one of four views.  The embedding follows the script:

    - Python [str] values are sequences of Unicode code points;
    - Python [float] values are IEEE binary64 numbers (the kernel's
      primitive floats), with every source numeral kept as the decimal it
      is written as and rounded to binary64 where the interpreter does so;
    - pandas frames are an index plus named columns;
    - calls that can raise return a [result]; the views run in a small
      state-and-exception monad over the session's globals, its object
      store and the elements put on the page. *)

From Stdlib Require Import ZArith NArith QArith Qround Qabs List String Ascii Bool Lia.
From Stdlib Require Import Floats Uint63 Permutation Sorted.
Import ListNotations.
Open Scope string_scope.
Open Scope list_scope.

Set Implicit Arguments.
Set Warnings "-inexact-float".

(** ** Exceptions and results *)

(** The exception classes the script can meet.  [KeyboardInterrupt] and
    [SystemExit] derive from [BaseException] only; every other class,
    [OtherException] included, is a subclass of [Exception]. *)
Inductive exc_class :=
| KeyboardInterrupt
| SystemExit
| ImportError
| ModuleNotFoundError
| ValueError
| KeyError
| TypeError
| RuntimeError
| re_error
| OtherException (name : string).

Record exn := mk_exn { exn_class : exc_class; exn_msg : string }.

Definition is_Exception (c : exc_class) : bool :=
  match c with
  | KeyboardInterrupt | SystemExit => false
  | _ => true
  end.

Definition is_ImportError (c : exc_class) : bool :=
  match c with
  | ImportError | ModuleNotFoundError => true
  | _ => false
  end.

(** The outcome of a call: a value, a raised exception, or [Unmodelled] when
    the input leaves the part of a library this development describes (an
    outcome that is never caught and about which nothing is claimed). *)
Inductive result (A : Type) :=
| Ok (a : A)
| Raise (e : exn)
| Unmodelled.

Arguments Ok {A} a.
Arguments Raise {A} e.
Arguments Unmodelled {A}.

Definition rbind {A B} (r : result A) (k : A -> result B) : result B :=
  match r with
  | Ok a => k a
  | Raise e => Raise e
  | Unmodelled => Unmodelled
  end.

Declare Scope result_scope.
Delimit Scope result_scope with result.
Notation "x <- c ;; k" := (rbind c (fun x => k))
  (at level 61, c at next level, right associativity) : result_scope.

(** ** Python strings *)

Module PyStr.

(** A [str] is a sequence of code points. *)
Definition str := list N.

Definition byte_of (a : ascii) : N := N_of_ascii a.

Definition cont (b : N) : N := N.land b 0x3F.

(** UTF-8 decoding, used to write [str] literals as they appear in the
    source file (which is UTF-8 encoded). *)
Fixpoint utf8_decode (bs : list N) : str :=
  match bs with
  | [] => []
  | b :: rest =>
      if (b <? 0x80)%N then b :: utf8_decode rest
      else if (b <? 0xE0)%N then
        match rest with
        | c :: rest' =>
            (N.shiftl (N.land b 0x1F) 6 + cont c)%N :: utf8_decode rest'
        | _ => [0xFFFD%N]
        end
      else if (b <? 0xF0)%N then
        match rest with
        | c :: d :: rest' =>
            (N.shiftl (N.land b 0x0F) 12 + N.shiftl (cont c) 6 + cont d)%N
              :: utf8_decode rest'
        | _ => [0xFFFD%N]
        end
      else
        match rest with
        | c :: d :: e :: rest' =>
            (N.shiftl (N.land b 0x07) 18 + N.shiftl (cont c) 12
             + N.shiftl (cont d) 6 + cont e)%N :: utf8_decode rest'
        | _ => [0xFFFD%N]
        end
  end.

Definition py (s : string) : str :=
  utf8_decode (map byte_of (list_ascii_of_string s)).

Definition between (lo hi c : N) : bool := ((lo <=? c) && (c <=? hi))%N.

(** [_sre.unicode_tolower]: the simple lower-case mapping, written out
    for the code points whose lower-case form lies in Basic Latin or
    Latin-1 (the factor names use no other character); any other code
    point is returned as it is, and cannot fold onto a character of the
    table. *)
Definition unicode_tolower (c : N) : N :=
  if between 0x41 0x5A c then (c + 32)%N
  else if between 0xC0 0xDE c && negb (c =? 0xD7)%N then (c + 32)%N
  else if (c =? 0x130)%N then 0x69%N
  else if (c =? 0x178)%N then 0xFF%N
  else if (c =? 0x1E9E)%N then 0xDF%N
  else if (c =? 0x212A)%N then 0x6B%N
  else if (c =? 0x212B)%N then 0xE5%N
  else c.

(** [sre_compile._ignorecase_fixes], on the same range: lower-case
    characters that share an upper-case form. *)
Definition ignorecase_fixes (lo : N) : list N :=
  if (lo =? 0x69)%N then [0x131%N]
  else if (lo =? 0x131)%N then [0x69%N]
  else if (lo =? 0x73)%N then [0x17F%N]
  else if (lo =? 0x17F)%N then [0x73%N]
  else if (lo =? 0xB5)%N then [0x3BC%N]
  else if (lo =? 0x3BC)%N then [0xB5%N]
  else [].

(** Python's [pat in x] on strings: a literal, case-sensitive substring. *)
Fixpoint startswith (p x : str) : bool :=
  match p, x with
  | [], _ => true
  | _ :: _, [] => false
  | a :: p', b :: x' => (a =? b)%N && startswith p' x'
  end.

Fixpoint contains (p x : str) : bool :=
  startswith p x || match x with [] => false | _ :: x' => contains p x' end.

End PyStr.

(** ** Python floats *)

Module Num.

(** An [int] converted to [float] (exact for the integers used here,
    all far below 2^53). *)
Definition float_of_int (z : Z) : float :=
  match z with
  | Z0 => PrimFloat.zero
  | Zpos _ => PrimFloat.of_uint63 (Uint63.of_Z z)
  | Zneg p => PrimFloat.opp (PrimFloat.of_uint63 (Uint63.of_Z (Zpos p)))
  end.

(** A decimal numeral of the source, read as the interpreter reads it:
    the binary64 number nearest to the decimal.  Numerator and
    denominator of the numerals used are exact binary64 integers, so one
    correctly rounded division yields that number. *)
Definition lit (q : Q) : float :=
  PrimFloat.div (float_of_int (Qnum q)) (float_of_int (Zpos (Qden q))).

(** The rational a finite float stands for. *)
Definition exact (f : float) : option Q :=
  match Prim2SF f with
  | S754_zero _ => Some 0%Q
  | S754_finite s m e =>
      let v := (inject_Z (Zpos m) * Qpower 2 e)%Q in
      Some (if s then Qopp v else v)
  | _ => None
  end.

(** Truncation toward zero of a finite float. *)
Definition trunc (f : float) : option Z :=
  match Prim2SF f with
  | S754_zero _ => Some 0%Z
  | S754_finite s m e =>
      let a := match e with
               | Zneg k => Z.shiftr (Zpos m) (Zpos k)
               | _ => Z.shiftl (Zpos m) e
               end in
      Some (if s then Z.opp a else a)
  | _ => None
  end.

(** Python's [int(x)] on a float. *)
Definition int_of_float (f : float) : result Z :=
  match trunc f with
  | Some z => Ok z
  | None =>
      if PrimFloat.is_nan f
      then Raise (mk_exn ValueError "cannot convert float NaN to integer")
      else Raise (mk_exn (OtherException "OverflowError")
                         "cannot convert float infinity to integer")
  end.

Definition in_int64 (z : Z) : bool :=
  ((- 2 ^ 63 <=? z) && (z <? 2 ^ 63))%Z.

(** numpy's cast of one float64 to int64; a value that is not finite or
    lies outside int64 has no defined result. *)
Definition int64_of_float (f : float) : result Z :=
  match trunc f with
  | Some z => if in_int64 z then Ok z else Unmodelled
  | None => Unmodelled
  end.

End Num.

(** ** Regular expressions: [re.compile] and [Pattern.search] *)

Module Sre.
Import PyStr.

Inductive quant := Q01 | Q0n | Q1n.

(** Parsed patterns.  [Nul] (no match) is produced by derivatives only. *)
Inductive re :=
| Nul
| Eps
| Lit (c : N)
| Any
| Cat (r1 r2 : re)
| Alt (r1 r2 : re)
| Repeat (q : quant) (greedy : bool) (r : re)
| Group (r : re).

Definition chr (s : string) : N :=
  match s with
  | String a _ => N_of_ascii a
  | EmptyString => 0%N
  end.

Definition ch_is (s : string) (c : N) : bool := (c =? chr s)%N.

(** The syntax described here: literals, [.], groups, [|] and the
    quantifiers [? * +], greedy or lazy.  A pattern that uses a
    backslash, a character set, a counted repeat or an anchor is outside
    it, as is a [(?...)] extension and a possessive quantifier. *)
Definition outside (c : N) : bool :=
  ch_is "\" c || ch_is "[" c || ch_is "{" c || ch_is "^" c || ch_is "$" c.

Definition in_fragment (pat : str) : bool := negb (existsb outside pat).

Definition error (msg : string) : exn := mk_exn re_error msg.

(** One open group (or the top level): the alternatives finished so far
    and the items of the one being read, both most recent first. *)
Record frame := mk_frame { alts : list re; items : list re }.

Definition empty_frame : frame := mk_frame [] [].

Definition push (it : re) (f : frame) : frame :=
  mk_frame (alts f) (it :: items f).

Definition sequence (its : list re) : re :=
  fold_left (fun acc it => Cat it acc) its Eps.

Definition branch (ps : list re) : re :=
  match ps with
  | [] => Eps
  | p :: ps' => fold_left (fun acc q => Alt q acc) ps' p
  end.

Definition close (f : frame) : re := branch (sequence (items f) :: alts f).

Definition next_alt (f : frame) : frame :=
  mk_frame (sequence (items f) :: alts f) [].

Definition quant_of (c : N) : option quant :=
  if ch_is "?" c then Some Q01
  else if ch_is "*" c then Some Q0n
  else if ch_is "+" c then Some Q1n
  else None.

(** [sre_parse.parse] on the fragment, as one pass over the pattern with
    the open groups on a stack; errors are raised where the recursive
    parser raises them. *)
Fixpoint parse_loop (src : str) (cur : frame) (stack : list frame)
  : result re :=
  match src with
  | [] =>
      match stack with
      | [] => Ok (close cur)
      | _ :: _ => Raise (error "missing ), unterminated subpattern")
      end
  | c :: rest =>
      if ch_is "|" c then parse_loop rest (next_alt cur) stack
      else if ch_is "(" c then
        match rest with
        | d :: _ =>
            if ch_is "?" d then Unmodelled
            else parse_loop rest empty_frame (cur :: stack)
        | [] => parse_loop rest empty_frame (cur :: stack)
        end
      else if ch_is ")" c then
        match stack with
        | [] => Raise (error "unbalanced parenthesis")
        | f :: stack' => parse_loop rest (push (Group (close cur)) f) stack'
        end
      else
        match quant_of c with
        | Some q =>
            match items cur with
            | [] => Raise (error "nothing to repeat")
            | Repeat _ _ _ :: _ => Raise (error "multiple repeat")
            | it :: its =>
                match rest with
                | d :: rest' =>
                    if ch_is "?" d then
                      parse_loop rest'
                        (mk_frame (alts cur) (Repeat q false it :: its)) stack
                    else if ch_is "+" d then Unmodelled
                    else
                      parse_loop rest
                        (mk_frame (alts cur) (Repeat q true it :: its)) stack
                | [] =>
                    parse_loop rest
                      (mk_frame (alts cur) (Repeat q true it :: its)) stack
                end
            end
        | None =>
            if ch_is "." c then parse_loop rest (push Any cur) stack
            else parse_loop rest (push (Lit c) cur) stack
        end
  end.

(** [re.compile(pat, flags=re.IGNORECASE)]. *)
Definition compile (pat : str) : result re :=
  if in_fragment pat then parse_loop pat empty_frame [] else Unmodelled.

(** A literal of the pattern against a character of the subject, under
    [IGNORECASE]: the lower-case forms agree, or are two lower-case
    forms of one upper-case letter. *)
Definition lit_matches (c t : N) : bool :=
  let lo := unicode_tolower c in
  let lt := unicode_tolower t in
  (lt =? lo)%N || existsb (N.eqb lt) (ignorecase_fixes lo).

(** [.] without [DOTALL]: any character but a newline. *)
Definition any_matches (t : N) : bool := negb (t =? 10)%N.

Fixpoint nullable (r : re) : bool :=
  match r with
  | Nul | Lit _ | Any => false
  | Eps => true
  | Cat r1 r2 => nullable r1 && nullable r2
  | Alt r1 r2 => nullable r1 || nullable r2
  | Repeat Q1n _ r' => nullable r'
  | Repeat _ _ _ => true
  | Group r' => nullable r'
  end.

Fixpoint deriv (t : N) (r : re) : re :=
  match r with
  | Nul | Eps => Nul
  | Lit c => if lit_matches c t then Eps else Nul
  | Any => if any_matches t then Eps else Nul
  | Cat r1 r2 =>
      if nullable r1 then Alt (Cat (deriv t r1) r2) (deriv t r2)
      else Cat (deriv t r1) r2
  | Alt r1 r2 => Alt (deriv t r1) (deriv t r2)
  | Repeat Q01 _ r' => deriv t r'
  | Repeat _ g r' => Cat (deriv t r') (Repeat Q0n g r')
  | Group r' => deriv t r'
  end.

(** Some prefix of [s] matches [r]. *)
Fixpoint match_prefix (r : re) (s : str) : bool :=
  nullable r ||
  match s with
  | [] => false
  | t :: s' => match_prefix (deriv t r) s'
  end.

(** [Pattern.search(s) is not None]: [r] matches somewhere in [s]. *)
Fixpoint search (r : re) (s : str) : bool :=
  match_prefix r s ||
  match s with
  | [] => false
  | _ :: s' => search r s'
  end.

(** What it means for a string to match a pattern. *)
Inductive matches : re -> str -> Prop :=
| MEps : matches Eps []
| MLit c t : lit_matches c t = true -> matches (Lit c) [t]
| MAny t : any_matches t = true -> matches Any [t]
| MCat r1 r2 s1 s2 :
    matches r1 s1 -> matches r2 s2 -> matches (Cat r1 r2) (s1 ++ s2)
| MAltL r1 r2 s : matches r1 s -> matches (Alt r1 r2) s
| MAltR r1 r2 s : matches r2 s -> matches (Alt r1 r2) s
| MGroup r s : matches r s -> matches (Group r) s
| MOpt0 g r : matches (Repeat Q01 g r) []
| MOpt1 g r s : matches r s -> matches (Repeat Q01 g r) s
| MStar0 g r : matches (Repeat Q0n g r) []
| MStarS g r s1 s2 :
    matches r s1 -> matches (Repeat Q0n g r) s2 ->
    matches (Repeat Q0n g r) (s1 ++ s2)
| MPlus g r s1 s2 :
    matches r s1 -> matches (Repeat Q0n g r) s2 ->
    matches (Repeat Q1n g r) (s1 ++ s2).

End Sre.

(** ** pandas: series and frames *)

Module Pandas.
Import PyStr.

Inductive cell :=
| VStr (s : str)
| VFloat (f : float)
| VInt (z : Z)
| VBool (b : bool).

(** A typed column: object (strings), float64, int64 or bool. *)
Inductive column :=
| CStr (l : list str)
| CFloat (l : list float)
| CInt (l : list Z)
| CBool (l : list bool).

Definition col_cells (c : column) : list cell :=
  match c with
  | CStr l => map VStr l
  | CFloat l => map VFloat l
  | CInt l => map VInt l
  | CBool l => map VBool l
  end.

Definition col_length (c : column) : nat := List.length (col_cells c).

(** A series and a frame carry their row labels. *)
Record Series := mk_Series { s_index : list nat; s_data : column }.

Record DataFrame :=
  mk_DataFrame { index : list nat; columns : list (string * column) }.

(** A row read out of a frame: the value under each column name. *)
Definition row := list (string * cell).

Fixpoint lookup {A} (name : string) (l : list (string * A)) : option A :=
  match l with
  | [] => None
  | (n, a) :: l' => if String.eqb n name then Some a else lookup name l'
  end.

Definition row_at (cols : list (string * column)) (i : nat) : row :=
  map (fun nc => (fst nc, nth i (col_cells (snd nc)) (VStr []))) cols.

(** The rows of a frame with their labels, in display order. *)
Definition rows (df : DataFrame) : list (nat * row) :=
  combine (index df) (map (row_at (columns df)) (seq 0 (List.length (index df)))).

Definition same_index (a b : list nat) : bool :=
  if list_eq_dec Nat.eq_dec a b then true else false.

(** [pd.DataFrame(data)] for a dict of equally long lists. *)
Definition DataFrame_of_dict (data : list (string * column))
  : result DataFrame :=
  match data with
  | [] => Ok (mk_DataFrame [] [])
  | (_, c) :: rest =>
      let n := col_length c in
      if forallb (fun nc => Nat.eqb (col_length (snd nc)) n) rest
      then Ok (mk_DataFrame (seq 0 n) data)
      else Raise (mk_exn ValueError "All arrays must be of the same length")
  end.

(** Column type inferred from the cells of a list of records: strings,
    integers, or floats (integers among floats are converted). *)
Fixpoint as_strs (l : list cell) : option (list str) :=
  match l with
  | [] => Some []
  | VStr s :: l' => option_map (cons s) (as_strs l')
  | _ => None
  end.

Fixpoint as_ints (l : list cell) : option (list Z) :=
  match l with
  | [] => Some []
  | VInt z :: l' => option_map (cons z) (as_ints l')
  | _ => None
  end.

Fixpoint as_floats (l : list cell) : option (list float) :=
  match l with
  | [] => Some []
  | VFloat f :: l' => option_map (cons f) (as_floats l')
  | VInt z :: l' => option_map (cons (Num.float_of_int z)) (as_floats l')
  | _ => None
  end.

Definition infer (l : list cell) : result column :=
  match as_strs l, as_ints l, as_floats l with
  | Some ss, _, _ => Ok (CStr ss)
  | _, Some zs, _ => Ok (CInt zs)
  | _, _, Some fs => Ok (CFloat fs)
  | _, _, _ => Unmodelled
  end.

Fixpoint gather (name : string) (recs : list row) : result (list cell) :=
  match recs with
  | [] => Ok []
  | r :: recs' =>
      match lookup name r with
      | Some v => rbind (gather name recs') (fun vs => Ok (v :: vs))
      | None => Unmodelled
      end
  end.

Fixpoint build_columns (names : list string) (recs : list row)
  : result (list (string * column)) :=
  match names with
  | [] => Ok []
  | n :: names' =>
      rbind (gather n recs) (fun vs =>
      rbind (infer vs) (fun c =>
      rbind (build_columns names' recs) (fun cs => Ok ((n, c) :: cs))))
  end.

(** [pd.DataFrame(records)] for a list of dicts with the same keys. *)
Definition DataFrame_of_records (recs : list row) : result DataFrame :=
  match recs with
  | [] => Ok (mk_DataFrame [] [])
  | r :: _ =>
      rbind (build_columns (map fst r) recs) (fun cs =>
      Ok (mk_DataFrame (seq 0 (List.length recs)) cs))
  end.

(** [df[name]]. *)
Definition getitem (df : DataFrame) (name : string) : result Series :=
  match lookup name (columns df) with
  | Some c => Ok (mk_Series (index df) c)
  | None => Raise (mk_exn KeyError name)
  end.

Fixpoint assign {A} (name : string) (a : A) (l : list (string * A))
  : list (string * A) :=
  match l with
  | [] => [(name, a)]
  | (n, b) :: l' =>
      if String.eqb n name then (n, a) :: l' else (n, b) :: assign name a l'
  end.

(** [df[name] = s]: a new column, or a replaced one, for a series that
    carries the frame's own labels. *)
Definition setitem (df : DataFrame) (name : string) (s : Series)
  : result DataFrame :=
  if same_index (s_index s) (index df)
  then Ok (mk_DataFrame (index df) (assign name (s_data s) (columns df)))
  else Unmodelled.

(** [s * k] for a float64 series and a number. *)
Definition mul (s : Series) (k : float) : result Series :=
  match s_data s with
  | CFloat l => Ok (mk_Series (s_index s) (CFloat (map (fun x => PrimFloat.mul x k) l)))
  | CStr _ =>
      Raise (mk_exn TypeError "can't multiply sequence by non-int of type 'float'")
  | _ => Unmodelled
  end.

Fixpoint traverse {A B} (f : A -> result B) (l : list A) : result (list B) :=
  match l with
  | [] => Ok []
  | a :: l' =>
      rbind (f a) (fun b => rbind (traverse f l') (fun bs => Ok (b :: bs)))
  end.

(** [s.astype(int)] for a float64 series: truncation toward zero. *)
Definition astype_int (s : Series) : result Series :=
  match s_data s with
  | CFloat l =>
      rbind (traverse Num.int64_of_float l) (fun zs =>
      Ok (mk_Series (s_index s) (CInt zs)))
  | CInt l => Ok s
  | _ => Unmodelled
  end.

(** [s.str.contains(pat, case=False)]: the pattern is compiled as a
    regular expression with [IGNORECASE] and searched for in each
    value (the object-dtype implementation). *)
Definition str_contains (s : Series) (pat : str) (case : bool)
  : result Series :=
  match s_data s with
  | CStr l =>
      if case then Unmodelled
      else
        rbind (Sre.compile pat) (fun r =>
        Ok (mk_Series (s_index s) (CBool (map (Sre.search r) l))))
  | _ =>
      Raise (mk_exn (OtherException "AttributeError")
               "Can only use .str accessor with string values")
  end.

Fixpoint select {A} (mask : list bool) (l : list A) : list A :=
  match mask, l with
  | true :: mask', a :: l' => a :: select mask' l'
  | false :: mask', _ :: l' => select mask' l'
  | _, _ => []
  end.

Definition col_select (mask : list bool) (c : column) : column :=
  match c with
  | CStr l => CStr (select mask l)
  | CFloat l => CFloat (select mask l)
  | CInt l => CInt (select mask l)
  | CBool l => CBool (select mask l)
  end.

(** [df[mask]] for a boolean series with the frame's labels: a new frame
    with the rows where the mask holds. *)
Definition getitem_mask (df : DataFrame) (mask : Series)
  : result DataFrame :=
  match s_data mask with
  | CBool m =>
      if same_index (s_index mask) (index df)
      then Ok (mk_DataFrame (select m (index df))
                 (map (fun nc => (fst nc, col_select m (snd nc))) (columns df)))
      else Unmodelled
  | _ => Unmodelled
  end.

Definition take {A} (d : A) (pos : list nat) (l : list A) : list A :=
  map (fun i => nth i l d) pos.

Definition col_take (pos : list nat) (c : column) : column :=
  match c with
  | CStr l => CStr (take [] pos l)
  | CFloat l => CFloat (take PrimFloat.zero pos l)
  | CInt l => CInt (take 0%Z pos l)
  | CBool l => CBool (take false pos l)
  end.

(** Positions ordered by key, by insertion; [before a b] tells that key
    [a] goes before key [b]. *)
Fixpoint insert_by (before : float -> float -> bool)
  (p : nat * float) (l : list (nat * float)) : list (nat * float) :=
  match l with
  | [] => [p]
  | q :: l' =>
      if before (snd q) (snd p) then q :: insert_by before p l'
      else p :: l
  end.

Definition argsort (before : float -> float -> bool) (keys : list float)
  : list nat :=
  map fst (fold_right (insert_by before) []
             (combine (seq 0 (List.length keys)) keys)).

Fixpoint distinct (l : list float) : bool :=
  match l with
  | [] => true
  | x :: l' => negb (existsb (PrimFloat.eqb x) l') && distinct l'
  end.

(** [df.sort_values(by=name, ascending=...)] on a float64 column.  The
    default sort is not stable and missing values are placed apart, so
    the result is described for keys that are numbers and pairwise
    different, where every sorting method gives the same frame. *)
Definition sort_values (df : DataFrame) (by_ : string) (ascending : bool)
  : result DataFrame :=
  rbind (getitem df by_) (fun key =>
  match s_data key with
  | CFloat ks =>
      if existsb PrimFloat.is_nan ks || negb (distinct ks) then Unmodelled
      else
        let before := if ascending then PrimFloat.ltb
                      else fun a b => PrimFloat.ltb b a in
        let pos := argsort before ks in
        Ok (mk_DataFrame (take 0%nat pos (index df))
              (map (fun nc => (fst nc, col_take pos (snd nc))) (columns df)))
  | _ => Unmodelled
  end).

(** numpy's [argmax] loop: the position of the first largest value. *)
Fixpoint argmax_from (best : float) (besti i : nat) (l : list float) : nat :=
  match l with
  | [] => besti
  | x :: l' =>
      if negb (PrimFloat.leb x best) then argmax_from x i (S i) l'
      else argmax_from best besti (S i) l'
  end.

Definition argmax (l : list float) : option nat :=
  match l with
  | [] => None
  | x :: l' => Some (argmax_from x 0 1 l')
  end.

(** [s.idxmax()]: the label of the first largest value. *)
Definition idxmax (s : Series) : result nat :=
  match s_data s with
  | CFloat l =>
      if existsb PrimFloat.is_nan l then Unmodelled
      else
        match argmax l with
        | None =>
            Raise (mk_exn ValueError "attempt to get argmax of an empty sequence")
        | Some i => Ok (nth i (s_index s) 0%nat)
        end
  | _ => Unmodelled
  end.

Fixpoint position (label : nat) (l : list nat) : option nat :=
  match l with
  | [] => None
  | x :: l' =>
      if Nat.eqb x label then Some 0%nat
      else option_map S (position label l')
  end.

(** [df.loc[label]] for a label that names one row. *)
Definition loc (df : DataFrame) (label : nat) : result row :=
  match position label (index df) with
  | Some i => Ok (row_at (columns df) i)
  | None => Raise (mk_exn KeyError "label")
  end.

(** [row[name]]. *)
Definition row_get (r : row) (name : string) : result cell :=
  match lookup name r with
  | Some v => Ok v
  | None => Raise (mk_exn KeyError name)
  end.

Fixpoint pick (names : list string) (cols : list (string * column))
  : result (list (string * column)) :=
  match names with
  | [] => Ok []
  | n :: names' =>
      match lookup n cols with
      | Some c => rbind (pick names' cols) (fun cs => Ok ((n, c) :: cs))
      | None => Raise (mk_exn KeyError n)
      end
  end.

(** [df[[name, ...]]]: a new frame with the named columns. *)
Definition getitem_list (df : DataFrame) (names : list string)
  : result DataFrame :=
  rbind (pick names (columns df)) (fun cs => Ok (mk_DataFrame (index df) cs)).

End Pandas.

(** ** The script *)

Module App.
Import PyStr Pandas.

(** *** The session: globals, objects, page *)

(** A [graphviz.Digraph] under construction. *)
Record Digraph := mk_Digraph {
  graph_attr : list (string * string);
  nodes : list (string * string * list (string * string));
  edges : list (string * string * option string)
}.

(** The calls of the decision-tree view into the drawing library and
    into the chart widget that renders its graph. *)
Inductive graph_call :=
| call_Digraph
| call_attr (key value : string)
| call_node (name label : string) (attrs : list (string * string))
| call_edge (tail head : string) (label : option string)
| call_graphviz_chart.

(** A piece of a formatted string: literal text or an inserted value. *)
Inductive piece := T (s : string) | V (v : cell).

Inductive trace :=
| Bar (name : string) (x y : Series) (marker_color : string)
| Pie (labels : list string) (values : list cell) (marker_colors : list string).

Record Figure := mk_Figure {
  traces : list trace; layout : list (string * string)
}.

(** What a view puts on the page, in order. *)
Inductive element :=
| st_markdown (body : string)
| st_write (body : string)
| st_subheader (body : string)
| st_warning (body : string)
| st_info (body : string)
| st_code (body : string)
| st_error (body : list piece)
| st_caption (body : list piece)
| st_metric (col : nat) (label : string) (value : list piece) (delta : string)
| st_progress (value : cell) (text : string)
| st_banner (huella meta arboles : cell)
| st_text_input (label : string)
| st_dataframe (df : DataFrame)
| st_plotly_chart (fig : Figure)
| st_graphviz_chart (g : Digraph)
| st_tabs (labels : list string)
| st_columns (n : nat)
| col_success (col : nat) (body : string).

Record world := mk_world {
  has_graphviz : bool;            (* the module-level flag *)
  store : list DataFrame;         (* frame objects, by address *)
  page : list element;            (* elements emitted so far *)
  graph_calls : list graph_call   (* drawing calls attempted so far *)
}.

(** What the script does not decide: the text typed into the filter box
    and which drawing calls fail. *)
Record env := mk_env {
  filtro : str;
  graph_fault : graph_call -> option exn
}.

Definition M (A : Type) : Type := world -> result A * world.

Definition ret {A} (a : A) : M A := fun w => (Ok a, w).

Definition bind {A B} (m : M A) (k : A -> M B) : M B :=
  fun w =>
    match m w with
    | (Ok a, w') => k a w'
    | (Raise e, w') => (Raise e, w')
    | (Unmodelled, w') => (Unmodelled, w')
    end.

Definition lift {A} (r : result A) : M A := fun w => (r, w).

(** [try: body  except <classes>: handler]. *)
Definition try_except {A} (body : M A) (caught : exc_class -> bool)
  (handler : M A) : M A :=
  fun w =>
    match body w with
    | (Raise e, w') =>
        if caught (exn_class e) then handler w' else (Raise e, w')
    | r => r
    end.

Definition emit (e : element) : M unit :=
  fun w =>
    (Ok tt, mk_world (has_graphviz w) (store w) (page w ++ [e]) (graph_calls w)).

(** A new frame object; the address is the variable's value. *)
Definition alloc (df : DataFrame) : M nat :=
  fun w =>
    (Ok (List.length (store w)),
     mk_world (has_graphviz w) (store w ++ [df]) (page w) (graph_calls w)).

Definition deref (a : nat) : M DataFrame :=
  fun w =>
    match nth_error (store w) a with
    | Some df => (Ok df, w)
    | None => (Unmodelled, w)
    end.

Definition read_flag : M bool := fun w => (Ok (has_graphviz w), w).

(** One call into the drawing library: it is attempted, then returns or
    raises as the environment decides. *)
Definition graph_op (E : env) (c : graph_call) : M unit :=
  fun w =>
    let w' := mk_world (has_graphviz w) (store w) (page w)
                (graph_calls w ++ [c]) in
    match graph_fault E c with
    | Some e => (Raise e, w')
    | None => (Ok tt, w')
    end.

End App.

Declare Scope app_scope.
Delimit Scope app_scope with app.
Notation "x <- c ;; k" := (App.bind c (fun x => k))
  (at level 61, c at next level, right associativity) : app_scope.
Notation "c ;;; k" := (App.bind c (fun _ => k))
  (at level 61, right associativity) : app_scope.

Module Ecotracks.
Import PyStr Pandas App.

(** *** Start-up (lines 10-14) *)

(** [try: import graphviz ... except ImportError: ...], given how the
    import ends: the flag, or the exception that escapes. *)
Definition import_graphviz (outcome : option exn) : result bool :=
  match outcome with
  | None => Ok true
  | Some e => if is_ImportError (exn_class e) then Ok false else Raise e
  end.

(** *** The tables (lines 55-93) *)

Definition Regional_literals : list string :=
  ["GRB"; "CATENARE"; "VRC"; "GGS"; "VRO"; "GOR"; "VAO"; "CEDI"].

Definition Total_literals : list Q :=
  [0.50; 14.25; 46.46; 28.34; 36.31; 13.16; 9.07; 0.38]%Q.

Definition get_regional_data : result DataFrame :=
  (df <- DataFrame_of_dict
           [("Regional", CStr (map py Regional_literals));
            ("Total", CFloat (map Num.lit Total_literals))] ;;
   t <- getitem df "Total" ;;
   a1 <- mul t (Num.lit 0.75) ;;
   df <- setitem df "Alcance 1" a1 ;;
   t <- getitem df "Total" ;;
   a2 <- mul t (Num.lit 0.15) ;;
   df <- setitem df "Alcance 2" a2 ;;
   t <- getitem df "Total" ;;
   a3 <- mul t (Num.lit 0.10) ;;
   df <- setitem df "Alcance 3" a3 ;;
   t <- getitem df "Total" ;;
   p <- mul t (Num.float_of_int 40) ;;
   arboles <- astype_int p ;;
   df <- setitem df "Arboles" arboles ;;
   Ok df)%result.

Definition total_huella_literal : Q := 148.47%Q.

Definition get_general_indicators : result row :=
  (let total_huella := Num.lit total_huella_literal in
   total_arboles <-
     Num.int_of_float (PrimFloat.mul total_huella (Num.float_of_int 40)) ;;
   Ok [("Huella Total", VFloat total_huella);
       ("Meta Reducción", VFloat (Num.lit 141.05));
       ("Alcance 1 %", VInt 75);
       ("Alcance 2 %", VInt 15);
       ("Alcance 3 %", VInt 10);
       ("Arboles Totales", VInt total_arboles)])%result.

Definition factor_record (id tipo nombre : string) (factor : cell)
  (unidad fuente : string) : row :=
  [("ID", VStr (py id)); ("Tipo", VStr (py tipo));
   ("Nombre", VStr (py nombre)); ("Factor", factor);
   ("Unidad", VStr (py unidad)); ("Fuente", VStr (py fuente))].

Definition get_factors_data : result DataFrame :=
  DataFrame_of_records
    [factor_record "F-001" "Combustible Líquido" "Diésel (ACPM)"
       (VFloat (Num.lit 10.15)) "kgCO2e/gal" "UPME 2023";
     factor_record "F-002" "Combustible Líquido" "Gasolina Corriente"
       (VFloat (Num.lit 8.15)) "kgCO2e/gal" "UPME 2023";
     factor_record "F-003" "Energía Eléctrica" "SIN Colombia"
       (VFloat (Num.lit 0.136)) "kgCO2/kWh" "UPME-FECOC";
     factor_record "F-004" "Refrigerante" "R-417B"
       (VInt 3235) "kgCO2e/kg" "IPCC AR5";
     factor_record "F-005" "Material" "Papel Blanco"
       (VFloat (Num.lit 1.84)) "kgCO2/kg" "Defra UK"].

(** *** Control panel (lines 141-218)

    Elements are recorded in the order the calls are made; the column
    or tab a call is made in is kept only where the call names it. *)

(** [df_reg.sort_values(by="Total", ascending=False)] (line 166). *)
Definition df_reg_sorted (df_reg : DataFrame) : result DataFrame :=
  sort_values df_reg "Total" false.

(** [df_reg.loc[df_reg['Total'].idxmax()]] (line 176). *)
Definition top_regional (df_reg : DataFrame) : result row :=
  (t <- getitem df_reg "Total" ;;
   label <- idxmax t ;;
   loc df_reg label)%result.

Definition bar_of (sorted : DataFrame) (name column color : string)
  : result trace :=
  (x <- getitem sorted "Regional" ;;
   y <- getitem sorted column ;;
   Ok (Bar name x y color))%result.

Definition tab_regional : M unit :=
  (emit (st_subheader "Distribución de Huella por Zona Operativa") ;;;
   d <- lift get_regional_data ;;
   df_reg <- alloc d ;;
   emit (st_columns 2) ;;;
   d <- deref df_reg ;;
   s <- lift (df_reg_sorted d) ;;
   sorted <- alloc s ;;
   s <- deref sorted ;;
   b1 <- lift (bar_of s "Alcance 1 (Directo)" "Alcance 1" "#D9232D") ;;
   s <- deref sorted ;;
   b2 <- lift (bar_of s "Alcance 2 (Energía)" "Alcance 2" "#002664") ;;
   s <- deref sorted ;;
   b3 <- lift (bar_of s "Alcance 3 (Indirecto)" "Alcance 3" "#94a3b8") ;;
   emit (st_plotly_chart
           (mk_Figure [b1; b2; b3]
              [("barmode", "stack");
               ("title", "Emisiones Totales por Regional (tCO2e)");
               ("height", "450")])) ;;;
   d <- deref df_reg ;;
   top <- lift (top_regional d) ;;
   emit (st_markdown "#### Top Contribuyente") ;;;
   name <- lift (row_get top "Regional") ;;
   emit (st_error [V name]) ;;;
   total <- lift (row_get top "Total") ;;
   emit (st_caption [T "Emisión: "; V total; T " tCO2e"]) ;;;
   emit (st_markdown "#### Detalle (tCO2e)") ;;;
   d <- deref df_reg ;;
   detail <- lift (getitem_list d ["Regional"; "Total"; "Arboles"]) ;;
   emit (st_dataframe detail))%app.

Definition tab_general (gen_data : row) : M unit :=
  (huella <- lift (row_get gen_data "Huella Total") ;;
   meta <- lift (row_get gen_data "Meta Reducción") ;;
   arboles <- lift (row_get gen_data "Arboles Totales") ;;
   emit (st_banner huella meta arboles) ;;;
   emit (st_columns 2) ;;;
   emit (st_subheader "Participación por Alcance (%)") ;;;
   v1 <- lift (row_get gen_data "Alcance 1 %") ;;
   v2 <- lift (row_get gen_data "Alcance 2 %") ;;
   v3 <- lift (row_get gen_data "Alcance 3 %") ;;
   emit (st_plotly_chart
           (mk_Figure
              [Pie ["Alcance 1"; "Alcance 2"; "Alcance 3"] [v1; v2; v3]
                 ["#D9232D"; "#002664"; "#94a3b8"]]
              [("height", "300")])) ;;;
   emit (st_subheader "Indicadores de Desempeño") ;;;
   p <- lift (row_get gen_data "Alcance 1 %") ;;
   emit (st_progress p "Peso del Alcance 1 (Crítico)") ;;;
   emit (st_caption
           [T "La mayor parte de la huella proviene de fuentes directas (Combustible)."]) ;;;
   emit (st_write EmptyString) ;;;
   emit (st_progress (VInt 95) "Avance vs Línea Base") ;;;
   emit (st_caption [T "Estamos gestionando activamente la reducción."]))%app.

Definition panel_de_control : M unit :=
  (gen_data <- lift get_general_indicators ;;
   emit (st_columns 4) ;;;
   emit (st_metric 1 "Factores Activos" [T "1,240"] "Base de Datos") ;;;
   emit (st_metric 2 "Transacciones Totales" [T "295"] "Registros 2025") ;;;
   arboles <- lift (row_get gen_data "Arboles Totales") ;;
   emit (st_metric 3 "Equivalencia Árboles" [V arboles; T " 🌳"]
           "Compensación req.") ;;;
   emit (st_metric 4 "Calidad de Datos" [T "87.5%"] "⚠️ Requiere revisión") ;;;
   emit (st_markdown "### 📊 Tablero de Mando e Indicadores") ;;;
   emit (st_write "Visualización consolidada basada en *Indicadores Propuestos*.") ;;;
   emit (st_tabs ["🌎 Por Regional (Detalle)"; "🔶 General (Consolidado)"]) ;;;
   tab_regional ;;;
   tab_general gen_data)%app.

(** *** Factor manager (lines 221-228) *)

Definition nonempty (s : str) : bool :=
  match s with [] => false | _ :: _ => true end.

Definition gestor_de_factores (E : env) : M unit :=
  (emit (st_markdown "Gestión centralizada de coeficientes de emisión.") ;;;
   d <- lift get_factors_data ;;
   df_factors <- alloc d ;;
   emit (st_text_input "🔍 Buscar factor (ej. Diesel, Gasolina):") ;;;
   df_factors <-
     (if nonempty (filtro E) then
        d <- deref df_factors ;;
        nombre <- lift (getitem d "Nombre") ;;
        mask <- lift (str_contains nombre (filtro E) false) ;;
        d <- deref df_factors ;;
        filtered <- lift (getitem_mask d mask) ;;
        alloc filtered
      else ret df_factors) ;;
   d <- deref df_factors ;;
   emit (st_dataframe d) ;;;
   emit (st_warning "⚠️ Nota de Seguridad: Cambios requieren autorización."))%app.

(** *** Decision tree (lines 231-264) *)

Definition Digraph_new (E : env) : M Digraph :=
  (graph_op E call_Digraph ;;; ret (mk_Digraph [] [] []))%app.

Definition attr (E : env) (g : Digraph) (key value : string) : M Digraph :=
  (graph_op E (call_attr key value) ;;;
   ret (mk_Digraph (graph_attr g ++ [(key, value)]) (nodes g) (edges g)))%app.

Definition node (E : env) (g : Digraph) (name label : string)
  (attrs : list (string * string)) : M Digraph :=
  (graph_op E (call_node name label attrs) ;;;
   ret (mk_Digraph (graph_attr g) (nodes g ++ [(name, label, attrs)])
          (edges g)))%app.

Definition edge (E : env) (g : Digraph) (tail head : string)
  (label : option string) : M Digraph :=
  (graph_op E (call_edge tail head label) ;;;
   ret (mk_Digraph (graph_attr g) (nodes g)
          (edges g ++ [(tail, head, label)])))%app.

Definition graphviz_chart (E : env) (g : Digraph) : M unit :=
  (graph_op E call_graphviz_chart ;;; emit (st_graphviz_chart g))%app.

(** The body of the [try] (lines 237-252). *)
Definition draw_tree (E : env) : M unit :=
  (g <- Digraph_new E ;;
   g <- attr E g "rankdir" "TB" ;;
   g <- node E g "A" "¿Es propiedad de Massy Energy?"
          [("shape", "box"); ("style", "filled"); ("fillcolor", "#002664");
           ("fontcolor", "white")] ;;
   g <- node E g "B" "SI: Alcance 1 (Directo)"
          [("shape", "ellipse"); ("color", "green")] ;;
   g <- node E g "C" "NO: Alcance 3 (Indirecto)"
          [("shape", "ellipse"); ("color", "gray")] ;;
   g <- node E g "D" "¿Qué tipo de vehículo es?" [("shape", "box")] ;;
   g <- node E g "E" "¿Quién paga el combustible?" [("shape", "box")] ;;
   g <- node E g "F" "Selección: Diésel/Gasolina"
          [("shape", "note"); ("style", "filled"); ("fillcolor", "#D9232D");
           ("fontcolor", "white")] ;;
   g <- node E g "G" "Selección: Cliente/Proveedor" [("shape", "note")] ;;
   g <- edge E g "A" "B" (Some "Si") ;;
   g <- edge E g "A" "C" (Some "No") ;;
   g <- edge E g "B" "D" None ;;
   g <- edge E g "C" "E" None ;;
   g <- edge E g "D" "F" None ;;
   g <- edge E g "E" "G" None ;;
   graphviz_chart E g)%app.

(** The [except Exception] handler (lines 254-255). *)
Definition render_fallback : M unit :=
  (emit (st_warning "El módulo de gráficos no pudo renderizar el diagrama.") ;;;
   emit (st_info "Flujo: Propiedad -> Sí (Alcance 1) / No (Alcance 3) -> Vehículo -> Combustible."))%app.

(** The [else] branch (lines 257-259). *)
Definition text_tree : M unit :=
  (emit (st_warning "⚠️ Librería Graphviz no detectada.") ;;;
   emit (st_info "El sistema funciona correctamente, pero la visualización del árbol lógico se ha simplificado a texto.") ;;;
   emit (st_code "Flujo Lógico:\n1. ¿Propiedad Massy? -> SÍ (A1) / NO (A3)\n2. ¿Tipo Vehículo? -> Configuración Factor\n3. ¿Combustible? -> Diésel/Gasolina"))%app.

Definition ingenieria_de_preguntas (E : env) : M unit :=
  (emit (st_markdown "### Árbol de Decisión Lógica (UX)") ;;;
   emit (st_write "Diagrama de flujo lógico para el operador.") ;;;
   flag <- read_flag ;;
   (if flag then try_except (draw_tree E) is_Exception render_fallback
    else text_tree) ;;;
   emit (st_columns 3) ;;;
   emit (col_success 1 "✅ **Prevención de Error**") ;;;
   emit (col_success 2 "✅ **Cálculo Automático**") ;;;
   emit (col_success 3 "✅ **Auditoría**"))%app.

End Ecotracks.

(** ** Readings of the tables and of the page, used to state properties *)

Module Reading.
Import PyStr Pandas App Ecotracks.

(** A row of the regional frame as the record the specification names. *)
Record RegionRecord := mk_RegionRecord {
  regionCode : str;
  total : float;
  scope1 : float;
  scope2 : float;
  scope3 : float;
  treeEquivalent : Z
}.

Definition record_of (r : row) : option RegionRecord :=
  match lookup "Regional" r, lookup "Total" r, lookup "Alcance 1" r,
        lookup "Alcance 2" r, lookup "Alcance 3" r, lookup "Arboles" r with
  | Some (VStr c), Some (VFloat t), Some (VFloat a1),
    Some (VFloat a2), Some (VFloat a3), Some (VInt n) =>
      Some (mk_RegionRecord c t a1 a2 a3 n)
  | _, _, _, _, _, _ => None
  end.

Fixpoint all_some {A} (l : list (option A)) : option (list A) :=
  match l with
  | [] => Some []
  | Some a :: l' => option_map (cons a) (all_some l')
  | None :: _ => None
  end.

Definition region_records (df : DataFrame) : option (list RegionRecord) :=
  all_some (map (fun lr => record_of (snd lr)) (rows df)).

(** Region code and total of each row, in display order. *)
Definition ranking (df : DataFrame) : option (list (str * float)) :=
  option_map (map (fun r => (regionCode r, total r))) (region_records df).

(** [l1] is [l2] with some elements left out, order kept. *)
Inductive subseq {A} : list A -> list A -> Prop :=
| subseq_nil : subseq [] []
| subseq_skip x l1 l2 : subseq l1 l2 -> subseq l1 (x :: l2)
| subseq_keep x l1 l2 : subseq l1 l2 -> subseq (x :: l1) (x :: l2).

(** The frames shown on a page by [st.dataframe], in order. *)
Fixpoint shown (p : list element) : list DataFrame :=
  match p with
  | [] => []
  | st_dataframe df :: p' => df :: shown p'
  | _ :: p' => shown p'
  end.

(** The category axis of every bar trace drawn on a page. *)
Definition bar_axis (t : trace) : list (list str) :=
  match t with
  | Bar _ x _ _ => match s_data x with CStr l => [l] | _ => [] end
  | Pie _ _ _ => []
  end.

Fixpoint bar_axes (p : list element) : list (list str) :=
  match p with
  | [] => []
  | st_plotly_chart fig :: p' => flat_map bar_axis (traces fig) ++ bar_axes p'
  | _ :: p' => bar_axes p'
  end.

Definition is_graphviz_chart (e : element) : bool :=
  match e with st_graphviz_chart _ => true | _ => false end.

(** The [ID] of each row of a factor frame. *)
Definition ids (df : DataFrame) : list (option cell) :=
  map (fun lr => lookup "ID" (snd lr)) (rows df).

(** The value of a finite float as a rational, 0 otherwise. *)
Definition value (f : float) : Q :=
  match Num.exact f with Some q => q | None => 0%Q end.

Definition is_finite (f : float) : bool :=
  match Num.exact f with Some _ => true | None => false end.

(** Rows in descending order of total. *)
Definition descending (l : list RegionRecord) : Prop :=
  StronglySorted (fun a b => PrimFloat.ltb (total b) (total a) = true) l.

(** The session as a run of the script finds it: nothing emitted, no
    frame created, no drawing call made. *)
Definition fresh (flag : bool) : world := mk_world flag [] [] [].

(** The calls [draw_tree] makes, in order. *)
Definition tree_calls : list graph_call :=
  [call_Digraph;
   call_attr "rankdir" "TB";
   call_node "A" "¿Es propiedad de Massy Energy?"
     [("shape", "box"); ("style", "filled"); ("fillcolor", "#002664");
      ("fontcolor", "white")];
   call_node "B" "SI: Alcance 1 (Directo)"
     [("shape", "ellipse"); ("color", "green")];
   call_node "C" "NO: Alcance 3 (Indirecto)"
     [("shape", "ellipse"); ("color", "gray")];
   call_node "D" "¿Qué tipo de vehículo es?" [("shape", "box")];
   call_node "E" "¿Quién paga el combustible?" [("shape", "box")];
   call_node "F" "Selección: Diésel/Gasolina"
     [("shape", "note"); ("style", "filled"); ("fillcolor", "#D9232D");
      ("fontcolor", "white")];
   call_node "G" "Selección: Cliente/Proveedor" [("shape", "note")];
   call_edge "A" "B" (Some "Si");
   call_edge "A" "C" (Some "No");
   call_edge "B" "D" None;
   call_edge "C" "E" None;
   call_edge "D" "F" None;
   call_edge "E" "G" None;
   call_graphviz_chart].

(** The first call of a list that the environment lets fail, with its
    position. *)
Fixpoint first_fault (E : env) (calls : list graph_call)
  : option (nat * exn) :=
  match calls with
  | [] => None
  | c :: calls' =>
      match graph_fault E c with
      | Some e => Some (0%nat, e)
      | None =>
          match first_fault E calls' with
          | Some (n, e) => Some (S n, e)
          | None => None
          end
      end
  end.

(** The finished decision tree: seven nodes, six edges. *)
Definition the_tree : Digraph :=
  mk_Digraph
    [("rankdir", "TB")]
    [("A", "¿Es propiedad de Massy Energy?",
      [("shape", "box"); ("style", "filled"); ("fillcolor", "#002664");
       ("fontcolor", "white")]);
     ("B", "SI: Alcance 1 (Directo)",
      [("shape", "ellipse"); ("color", "green")]);
     ("C", "NO: Alcance 3 (Indirecto)",
      [("shape", "ellipse"); ("color", "gray")]);
     ("D", "¿Qué tipo de vehículo es?", [("shape", "box")]);
     ("E", "¿Quién paga el combustible?", [("shape", "box")]);
     ("F", "Selección: Diésel/Gasolina",
      [("shape", "note"); ("style", "filled"); ("fillcolor", "#D9232D");
       ("fontcolor", "white")]);
     ("G", "Selección: Cliente/Proveedor", [("shape", "note")])]
    [("A", "B", Some "Si"); ("A", "C", Some "No"); ("B", "D", None);
     ("C", "E", None); ("D", "F", None); ("E", "G", None)].

(** The elements every run of the decision-tree view starts and ends
    with. *)
Definition tree_header : list element :=
  [st_markdown "### Árbol de Decisión Lógica (UX)";
   st_write "Diagrama de flujo lógico para el operador."].

(** The textual rendering: two notices and the flow as text (line
    breaks written as in the source). *)
Definition text_elements : list element :=
  [st_warning "⚠️ Librería Graphviz no detectada.";
   st_info "El sistema funciona correctamente, pero la visualización del árbol lógico se ha simplificado a texto.";
   st_code "Flujo Lógico:\n1. ¿Propiedad Massy? -> SÍ (A1) / NO (A3)\n2. ¿Tipo Vehículo? -> Configuración Factor\n3. ¿Combustible? -> Diésel/Gasolina"].

(** What replaces the chart when drawing fails. *)
Definition fallback_elements : list element :=
  [st_warning "El módulo de gráficos no pudo renderizar el diagrama.";
   st_info "Flujo: Propiedad -> Sí (Alcance 1) / No (Alcance 3) -> Vehículo -> Combustible."].

Definition tree_footer : list element :=
  [st_columns 3;
   col_success 1 "✅ **Prevención de Error**";
   col_success 2 "✅ **Cálculo Automático**";
   col_success 3 "✅ **Auditoría**"].

(** The factor frame [get_factors_data] builds, and its name column. *)
Definition factor_table : DataFrame :=
  match get_factors_data with
  | Ok d => d
  | _ => mk_DataFrame [] []
  end.

Definition factor_names : list str :=
  map py ["Diésel (ACPM)"; "Gasolina Corriente"; "SIN Colombia"; "R-417B";
          "Papel Blanco"].

Definition factor_view_elements (d : DataFrame) : list element :=
  [st_markdown "Gestión centralizada de coeficientes de emisión.";
   st_text_input "🔍 Buscar factor (ej. Diesel, Gasolina):";
   st_dataframe d;
   st_warning "⚠️ Nota de Seguridad: Cambios requieren autorización."].

(** What the factor table widget is given, as a function of the filter
    text alone. *)
Definition factor_view (f : str) : result DataFrame :=
  (d <- get_factors_data ;;
   if nonempty f then
     nombre <- getitem d "Nombre" ;;
     mask <- str_contains nombre f false ;;
     getitem_mask d mask
   else Ok d)%result.

(** The factor view, run with filter text [f] in any session, ends
    normally and shows frame [d]. *)
Definition shows (f : str) (d : DataFrame) : Prop :=
  forall gf w,
  exists w',
    gestor_de_factores (mk_env f gf) w = (Ok tt, w') /\
    shown (page w') = shown (page w) ++ [d].

(** [p] occurs in [x] as a literal substring, letter case ignored. *)
Definition occurs_in (p x : str) : bool :=
  PyStr.contains (map unicode_tolower p) (map unicode_tolower x).

(** A character with no special meaning in a pattern. *)
Definition plain (c : N) : bool :=
  negb (Sre.outside c || Sre.ch_is "|" c || Sre.ch_is "(" c
        || Sre.ch_is ")" c || Sre.ch_is "?" c || Sre.ch_is "*" c
        || Sre.ch_is "+" c || Sre.ch_is "." c).

(** The pattern a text of plain characters stands for: its characters
    one after the other. *)
Definition literal_pattern (p : str) : Sre.re :=
  fold_right (fun c r => Sre.Cat (Sre.Lit c) r) Sre.Eps p.

(** [p] occurs in [x], letter case ignored the way the matcher ignores
    it. *)
Definition found_in (p x : str) : Prop :=
  exists pre mid post,
    x = pre ++ mid ++ post /\
    Forall2 (fun c t => Sre.lit_matches c t = true) p mid.

End Reading.

(** ** The rest of the script: start-up, sidebar, header, router, reports *)

Module Shell.
Import PyStr Pandas App Ecotracks.

(** A figure made by [plotly.express]. *)
Inductive px_figure :=
| px_bar (x y color : Series) (color_discrete_sequence : list string)
| px_pie (values names : Series) (hole : float).

(** What the script as a whole puts on the screen: the elements of the
    three views described above ([W]), and the calls only the shell and
    the report view make.  The style sheet (lines 25-51) and the embedded
    logo (lines 104-112) are fixed markup and are recorded by name. *)
Inductive widget :=
| W (e : element)
| st_set_page_config (page_title page_icon layout initial_sidebar_state : string)
| st_style
| st_image (path : string)
| st_logo_svg
| st_title (body : string)
| st_radio (label : string) (options : list string) (index : nat)
| st_px_chart (fig : px_figure)
| st_download_button (label data file_name : string).

(** What one run of the script is given from outside. *)
Record input := mk_input {
  import_outcome : option exn;   (* how [import graphviz] ends *)
  logo_exists : bool;            (* [os.path.exists("logo.png")] *)
  image_fault : option exn;      (* whether [st.image] raises on the file *)
  choice : option nat;           (* the option picked in the radio, if any *)
  widgets : env                  (* filter text, drawing library *)
}.

(** Top-level code: an outcome and the widgets put out so far. *)
Definition Top (A : Type) : Type := (result A * list widget)%type.

Definition sret {A} (a : A) : Top A := (Ok a, []).

Definition sbind {A B} (m : Top A) (k : A -> Top B) : Top B :=
  match m with
  | (Ok a, ws) => let (r, ws') := k a in (r, ws ++ ws')
  | (Raise e, ws) => (Raise e, ws)
  | (Unmodelled, ws) => (Unmodelled, ws)
  end.

Definition put (w : widget) : Top unit := (Ok tt, [w]).

Definition slift {A} (r : result A) : Top A := (r, []).

(** A view run in the session of this run of the script: the flag as the
    import left it, nothing emitted, no frame, no drawing call yet. *)
Definition run_view (flag : bool) (m : M unit) : Top unit :=
  let (r, w') := m (mk_world flag [] [] []) in (r, map W (page w')).

End Shell.

Declare Scope shell_scope.
Delimit Scope shell_scope with shell.
Notation "x <- c ;; k" := (Shell.sbind c (fun x => k))
  (at level 61, c at next level, right associativity) : shell_scope.
Notation "c ;;; k" := (Shell.sbind c (fun _ => k))
  (at level 61, right associativity) : shell_scope.

Module Main.
Import PyStr Pandas App Ecotracks Shell.

(** The options of the navigation radio (line 120). *)
Definition options : list string :=
  ["Panel de Control"; "Gestor de Factores"; "Ingeniería de Preguntas";
   "Reportes ISO 14064"].

(** [st.radio("Navegación", options, index=0)]: the option picked, the
    first one as long as none was picked. *)
Definition radio (inp : input) : Top string :=
  (put (st_radio "Navegación" options 0) ;;;
   match choice inp with
   | None => slift (match nth_error options 0 with
                    | Some l => Ok l
                    | None => Unmodelled
                    end)
   | Some i => slift (match nth_error options i with
                      | Some l => Ok l
                      | None => Unmodelled
                      end)
   end)%shell.

(** Lines 100-112: the logo file when present, the embedded logo
    otherwise. *)
Definition logo (inp : input) : Top unit :=
  if logo_exists inp then
    match image_fault inp with
    | Some e => slift (Raise e)
    | None => put (st_image "logo.png")
    end
  else put st_logo_svg.

(** Lines 96-126. *)
Definition sidebar (inp : input) : Top string :=
  (logo inp ;;;
   put (st_title "ECOTRACKS") ;;;
   put (W (st_markdown "### Enterprise Carbon Mgmt.")) ;;;
   put (W (st_markdown "---")) ;;;
   selected_page <- radio inp ;;
   put (W (st_markdown "---")) ;;;
   put (W (st_caption [T "Configuración v1.0.4"])) ;;;
   put (W (st_caption [T "© Massy Energy Colombia"])) ;;;
   sret selected_page)%shell.

(** Lines 129-136. *)
Definition header (selected_page : string) : Top unit :=
  (put (W (st_columns 2)) ;;;
   put (st_title selected_page) ;;;
   put (W (st_markdown "**Proyecto:** Contrato CW11333073 (Massy-Ecopetrol) | ✅ SISTEMA AUDITADO")) ;;;
   put (W (st_info "Usuario: Admin HSE")) ;;;
   put (W (st_markdown "---")))%shell.

(** A column handed to [plotly.express] by name. *)
Definition px_column (df : DataFrame) (name : string) : result Series :=
  match lookup name (columns df) with
  | Some c => Ok (mk_Series (index df) c)
  | None => Raise (mk_exn ValueError name)
  end.

Definition make_px_bar (df : DataFrame) (x y color : string)
  (color_discrete_sequence : list string) : result px_figure :=
  (xs <- px_column df x ;;
   ys <- px_column df y ;;
   cs <- px_column df color ;;
   Ok (px_bar xs ys cs color_discrete_sequence))%result.

Definition make_px_pie (df : DataFrame) (values names : string)
  (hole : float) : result px_figure :=
  (vs <- px_column df values ;;
   ns <- px_column df names ;;
   Ok (px_pie vs ns hole))%result.

(** Report view (lines 267-299). *)
Definition reportes_iso_14064 : Top unit :=
  (put (W (st_markdown "### Informe de Desempeño por Alcance | 2025")) ;;;
   put (W (st_tabs ["🔥 Alcance 1"; "⚡ Alcance 2"; "🚛 Alcance 3"])) ;;;
   put (W (st_columns 2)) ;;;
   put (W (st_metric 1 "Total Alcance 1" [T "111.35 tCO2e"] "75% del Total")) ;;;
   put (W (st_info "Fuente Principal: Consumo de Diésel.")) ;;;
   df_a1 <- slift (DataFrame_of_dict
                     [("Fuente", CStr (map py ["Diésel"; "Gasolina"; "Gas Natural"]));
                      ("Valor", CFloat (map Num.lit [90.5; 20.1; 0.75]%Q))]) ;;
   fig_a1 <- slift (make_px_bar df_a1 "Fuente" "Valor" "Fuente"
                      ["#D9232D"; "#ff6b6b"; "#ffbaba"]) ;;
   put (st_px_chart fig_a1) ;;;
   put (W (st_columns 2)) ;;;
   put (W (st_metric 1 "Total Alcance 2" [T "22.27 tCO2e"] "15% del Total")) ;;;
   put (W (st_info "Fuente: Consumo eléctrico Red SIN.")) ;;;
   put (W (st_progress (VInt 100) "100% Energía de Red")) ;;;
   put (W (st_columns 2)) ;;;
   put (W (st_metric 1 "Total Alcance 3" [T "14.85 tCO2e"] "10% del Total")) ;;;
   df_a3 <- slift (DataFrame_of_dict
                     [("Fuente", CStr (map py ["Transporte"; "Residuos"; "Papel"; "Viajes"]));
                      ("Valor", CFloat (map Num.lit [10.2; 3.5; 1.0; 0.15]%Q))]) ;;
   fig_a3 <- slift (make_px_pie df_a3 "Valor" "Fuente" (Num.lit 0.5)) ;;
   put (st_px_chart fig_a3) ;;;
   put (W (st_markdown "---")) ;;;
   put (st_download_button "📥 Descargar Informe PDF" "Simulacion PDF"
          "reporte.pdf"))%shell.

(** The [if]/[elif] chain on the selected label (lines 141, 221, 231,
    267); it has no [else]. *)
Definition vistas (inp : input) (flag : bool) (selected_page : string)
  : Top unit :=
  if String.eqb selected_page "Panel de Control" then
    run_view flag panel_de_control
  else if String.eqb selected_page "Gestor de Factores" then
    run_view flag (gestor_de_factores (widgets inp))
  else if String.eqb selected_page "Ingeniería de Preguntas" then
    run_view flag (ingenieria_de_preguntas (widgets inp))
  else if String.eqb selected_page "Reportes ISO 14064" then
    reportes_iso_14064
  else sret tt.

(** One run of the script, top to bottom. *)
Definition script (inp : input) : Top unit :=
  (flag <- slift (import_graphviz (import_outcome inp)) ;;
   put (st_set_page_config "Ecotracks Dashboard" "🌿" "wide" "expanded") ;;;
   put st_style ;;;
   selected_page <- sidebar inp ;;
   header selected_page ;;;
   vistas inp flag selected_page)%shell.

End Main.

(** ** Further readings *)

Module Folding.
Import PyStr.

(** A pattern with every literal replaced by its lower-case form. *)
Fixpoint lower_re (r : Sre.re) : Sre.re :=
  match r with
  | Sre.Nul => Sre.Nul
  | Sre.Eps => Sre.Eps
  | Sre.Lit c => Sre.Lit (unicode_tolower c)
  | Sre.Any => Sre.Any
  | Sre.Cat r1 r2 => Sre.Cat (lower_re r1) (lower_re r2)
  | Sre.Alt r1 r2 => Sre.Alt (lower_re r1) (lower_re r2)
  | Sre.Repeat q g r' => Sre.Repeat q g (lower_re r')
  | Sre.Group r' => Sre.Group (lower_re r')
  end.

Definition lower_frame (f : Sre.frame) : Sre.frame :=
  Sre.mk_frame (map lower_re (Sre.alts f)) (map lower_re (Sre.items f)).

Definition rmap {A B} (g : A -> B) (r : result A) : result B :=
  match r with
  | Ok a => Ok (g a)
  | Raise e => Raise e
  | Unmodelled => Unmodelled
  end.

(** Mask [m1] marks no row that [m2] does not mark. *)
Definition within (m1 m2 : list bool) : Prop :=
  Forall2 (fun a b => a = true -> b = true) m1 m2.

(** The part of a page added by a run that started from [before]. *)
Definition added (before after : list App.element) : list App.element :=
  skipn (List.length before) after.

(** The graphs drawn on a page. *)
Fixpoint charts (p : list App.element) : list App.Digraph :=
  match p with
  | [] => []
  | App.st_graphviz_chart g :: p' => g :: charts p'
  | _ :: p' => charts p'
  end.

(** The position of the selected option: the one picked, the first one
    before any pick. *)
Definition picked (inp : Shell.input) : nat :=
  match Shell.choice inp with
  | Some i => i
  | None => 0%nat
  end.

(** The four views in the order of the radio's options. *)
Definition views (inp : Shell.input) (flag : bool) : list (Shell.Top unit) :=
  [Shell.run_view flag Ecotracks.panel_de_control;
   Shell.run_view flag (Ecotracks.gestor_de_factores (Shell.widgets inp));
   Shell.run_view flag (Ecotracks.ingenieria_de_preguntas (Shell.widgets inp));
   Main.reportes_iso_14064].

End Folding.

(** ** The factor view, the router and the file over any pattern engine *)

Module Engines.
Import PyStr Pandas App Ecotracks Shell Main.

(** What [str.contains] asks of the regular-expression engine behind it
    ([re] for object-dtype strings, another one for other string dtypes):
    given the pattern, an exception, or the test it then runs on every
    value. *)
Definition engine : Type := str -> result (str -> bool).

(** The engine described in [Sre]. *)
Definition re_search (pat : str) : result (str -> bool) :=
  (r <- Sre.compile pat ;; Ok (Sre.search r))%result.

(** [s.str.contains(pat, case=False)], whatever the engine. *)
Definition str_contains_by (eng : engine) (s : Series) (pat : str)
  (case : bool) : result Series :=
  match s_data s with
  | CStr l =>
      if case then Unmodelled
      else
        rbind (eng pat) (fun test =>
        Ok (mk_Series (s_index s) (CBool (map test l))))
  | _ =>
      Raise (mk_exn (OtherException "AttributeError")
               "Can only use .str accessor with string values")
  end.

(** Factor manager (lines 221-228), whatever the engine. *)
Definition gestor_de_factores_by (eng : engine) (E : env) : M unit :=
  (emit (st_markdown "Gestión centralizada de coeficientes de emisión.") ;;;
   d <- lift get_factors_data ;;
   df_factors <- alloc d ;;
   emit (st_text_input "🔍 Buscar factor (ej. Diesel, Gasolina):") ;;;
   df_factors <-
     (if nonempty (filtro E) then
        d <- deref df_factors ;;
        nombre <- lift (getitem d "Nombre") ;;
        mask <- lift (str_contains_by eng nombre (filtro E) false) ;;
        d <- deref df_factors ;;
        filtered <- lift (getitem_mask d mask) ;;
        alloc filtered
      else ret df_factors) ;;
   d <- deref df_factors ;;
   emit (st_dataframe d) ;;;
   emit (st_warning "⚠️ Nota de Seguridad: Cambios requieren autorización."))%app.

(** What the factor table widget is given, as a function of the engine
    and the filter text. *)
Definition factor_view_by (eng : engine) (f : str) : result DataFrame :=
  (d <- get_factors_data ;;
   if nonempty f then
     nombre <- getitem d "Nombre" ;;
     mask <- str_contains_by eng nombre f false ;;
     getitem_mask d mask
   else Ok d)%result.

(** The outcome is one this development describes. *)
Definition described {A} (r : result A) : bool :=
  match r with
  | Unmodelled => false
  | _ => true
  end.

(** The [if]/[elif] chain (lines 141, 221, 231, 267), whatever the
    engine. *)
Definition vistas_by (eng : engine) (inp : input) (flag : bool)
  (selected_page : string) : Top unit :=
  if String.eqb selected_page "Panel de Control" then
    run_view flag panel_de_control
  else if String.eqb selected_page "Gestor de Factores" then
    run_view flag (gestor_de_factores_by eng (widgets inp))
  else if String.eqb selected_page "Ingeniería de Preguntas" then
    run_view flag (ingenieria_de_preguntas (widgets inp))
  else if String.eqb selected_page "Reportes ISO 14064" then
    reportes_iso_14064
  else sret tt.

(** Lines 1-5: [import streamlit], [pandas], [plotly.express],
    [plotly.graph_objects], [os], outside any [try]; [fault] is the
    exception the first failing one raises, if one fails. *)
Definition imports (fault : option exn) : Top unit :=
  match fault with
  | Some e => slift (Raise e)
  | None => sret tt
  end.

(** The file from its first line, whatever the engine. *)
Definition app_py (eng : engine) (fault : option exn) (inp : input)
  : Top unit :=
  (imports fault ;;;
   flag <- slift (import_graphviz (import_outcome inp)) ;;
   put (st_set_page_config "Ecotracks Dashboard" "🌿" "wide" "expanded") ;;;
   put st_style ;;;
   selected_page <- sidebar inp ;;
   header selected_page ;;;
   vistas_by eng inp flag selected_page)%shell.

End Engines.

(** * Properties *)

Import PyStr Pandas App Ecotracks Reading.
Import Shell Main Folding.
Import Engines.

Unset Implicit Arguments.

(** ** Numerals *)

(** The numerals of the tables are read as the binary64 numbers the
    kernel's own reader gives for the same decimals. *)
Lemma numerals_as_read :
  map Num.lit Total_literals
  = [0.50; 14.25; 46.46; 28.34; 36.31; 13.16; 9.07; 0.38]%float
  /\ Num.lit total_huella_literal = 148.47%float
  /\ (Num.lit 0.75, Num.lit 0.15, Num.lit 0.10) = (0.75, 0.15, 0.10)%float.
Proof. repeat split; vm_compute; reflexivity. Qed.

Lemma py_decodes_accents :
  py "Diésel" = [0x44; 0x69; 0xE9; 0x73; 0x65; 0x6C]%N.
Proof. reflexivity. Qed.

Ltac cases_in H :=
  simpl in H;
  repeat match type of H with
         | _ \/ _ => destruct H as [H | H]
         | False => destruct H
         end.

(** ** Derived regional figures *)

(** C2. Every region record's tree equivalent is the floor of forty times
    its total: of the decimal written in the table, and of the exact value
    of the binary64 total as well.  The record with total 46.46 has 1858
    trees, and the general indicator computes floor(148.47 x 40) = 5938. *)
Theorem tree_equivalent_is_floor :
  exists df rs gen,
    get_regional_data = Ok df /\
    region_records df = Some rs /\
    Forall2 (fun q r => total r = Num.lit q /\
                        treeEquivalent r = Qfloor (q * 40))
      Total_literals rs /\
    Forall (fun r => is_finite (total r) = true /\
                     treeEquivalent r = Qfloor (value (total r) * 40)) rs /\
    (forall r, In r rs -> PrimFloat.eqb (total r) (Num.lit 46.46) = true ->
               treeEquivalent r = 1858%Z) /\
    get_general_indicators = Ok gen /\
    lookup "Arboles Totales" gen = Some (VInt 5938) /\
    Qfloor (total_huella_literal * 40) = 5938%Z.
Proof.
  do 3 eexists.
  split; [vm_compute; reflexivity |].
  split; [vm_compute; reflexivity |].
  split; [repeat constructor |].
  split; [repeat constructor |].
  split.
  - intros r Hin Heq.
    cases_in Hin; subst r; vm_compute in Heq; try discriminate Heq; reflexivity.
  - split; [vm_compute; reflexivity |].
    split; reflexivity.
Qed.

(** C3. In every region record the three scopes are the binary64 products
    of the total with 0.75, 0.15 and 0.10, and their sum is within 1e-6 of
    the total, both as the script's floats add up and for the exact values
    of the four numbers. *)
Theorem scopes_split_total :
  exists df rs,
    get_regional_data = Ok df /\
    region_records df = Some rs /\
    List.length rs = 8%nat /\
    Forall (fun r =>
      scope1 r = PrimFloat.mul (total r) (Num.lit 0.75) /\
      scope2 r = PrimFloat.mul (total r) (Num.lit 0.15) /\
      scope3 r = PrimFloat.mul (total r) (Num.lit 0.10) /\
      PrimFloat.leb
        (PrimFloat.abs (scope1 r + scope2 r + scope3 r - total r)%float)
        (Num.lit 0.000001) = true /\
      Qle_bool
        (Qabs (value (scope1 r) + value (scope2 r) + value (scope3 r)
               - value (total r)))
        0.000001 = true) rs.
Proof.
  do 2 eexists.
  split; [vm_compute; reflexivity |].
  split; [vm_compute; reflexivity |].
  split; [reflexivity |].
  repeat constructor; vm_compute; reflexivity.
Qed.

(** C8. The literal total footprint, 148.47, is the sum of the eight
    regional totals as written in the table; adding the eight binary64
    totals in table order gives the binary64 148.47 too.  The two are
    separate literals of the script: the indicator holds the one, the
    frame's Total column the others. *)
Theorem total_footprint_is_sum :
  exists df t gen,
    get_regional_data = Ok df /\
    getitem df "Total" = Ok t /\
    s_data t = CFloat (map Num.lit Total_literals) /\
    get_general_indicators = Ok gen /\
    lookup "Huella Total" gen = Some (VFloat (Num.lit total_huella_literal)) /\
    total_huella_literal = 148.47%Q /\
    Total_literals = [0.50; 14.25; 46.46; 28.34; 36.31; 13.16; 9.07; 0.38]%Q /\
    (fold_right Qplus 0 Total_literals == total_huella_literal)%Q /\
    fold_left PrimFloat.add (map Num.lit Total_literals) 0%float
    = Num.lit total_huella_literal.
Proof.
  do 3 eexists.
  split; [vm_compute; reflexivity |].
  split; [vm_compute; reflexivity |].
  split; [vm_compute; reflexivity |].
  split; [vm_compute; reflexivity |].
  split; [vm_compute; reflexivity |].
  split; [reflexivity |].
  split; [reflexivity |].
  split; [vm_compute; reflexivity | vm_compute; reflexivity].
Qed.

(** Under the quotient reading the ratios are not all exact: dividing the
    scope-1 figure of GOR (total 13.16) by the total does not give 0.75
    back. *)
Remark scope_quotient_inexact :
  PrimFloat.eqb
    (PrimFloat.div (PrimFloat.mul (Num.lit 13.16) (Num.lit 0.75)) (Num.lit 13.16))
    (Num.lit 0.75) = false.
Proof. vm_compute. reflexivity. Qed.

(** ** Ranking of the regions *)

Section SortedUnique.
Variable A : Type.
Variable R : A -> A -> Prop.

(** Two lists with the same elements, both strictly ordered by a
    relation that never holds both ways, are the same list. *)
Lemma sorted_perm_unique (l1 l2 : list A) :
  (forall x y, In x l1 -> In y l1 -> R x y -> R y x -> False) ->
  StronglySorted R l1 -> StronglySorted R l2 ->
  Permutation l1 l2 -> l1 = l2.
Proof.
  revert l2.
  induction l1 as [| x t1 IH]; intros l2 Hasym S1 S2 P.
  - apply Permutation_nil in P. now subst.
  - destruct l2 as [| y t2].
    + apply Permutation_sym, Permutation_nil in P. discriminate.
    + apply StronglySorted_inv in S1. destruct S1 as [S1 F1].
      apply StronglySorted_inv in S2. destruct S2 as [S2 F2].
      assert (x = y) as ->.
      { assert (In x (y :: t2)) as Hx
          by (eapply Permutation_in; [exact P | now left]).
        assert (In y (x :: t1)) as Hy
          by (eapply Permutation_in;
              [apply Permutation_sym; exact P | now left]).
        destruct Hx as [Hx | Hx]; [now subst |].
        destruct Hy as [Hy | Hy]; [now subst |].
        exfalso.
        rewrite Forall_forall in F1, F2.
        apply (Hasym x y); [now left | now right | now apply F1 | now apply F2]. }
      f_equal.
      apply IH; auto.
      * intros a b Ha Hb. apply Hasym; now right.
      * now apply Permutation_cons_inv in P.
Qed.
End SortedUnique.

(** Permutations of explicit lists, one element at a time. *)
Ltac perm_step :=
  lazymatch goal with
  | |- Permutation [] [] => apply perm_nil
  | |- Permutation (?a :: ?l) ?L =>
      let rec go pre rest :=
        lazymatch rest with
        | a :: ?post => apply (@Permutation_cons_app _ l pre post a); simpl
        | ?b :: ?post => go (pre ++ [b]) post
        end in
      go (@nil ltac:(let T := type of a in exact T)) L
  end.

(** C4. Sorting the regional frame by total, descending, gives the rows in
    the order VRC, VRO, GGS, CATENARE, GOR, VAO, GRB, CEDI with the totals
    46.46, 36.31, 28.34, 14.25, 13.16, 9.07, 0.50, 0.38.  Any arrangement
    of the eight records that is descending by total is this one, whatever
    the sorting method.  It is the category axis of the three bar traces
    the control panel draws. *)
Theorem regions_sorted_by_total :
  forall flag,
  exists df rs s w',
    get_regional_data = Ok df /\
    region_records df = Some rs /\
    df_reg_sorted df = Ok s /\
    ranking s
    = Some [(py "VRC", Num.lit 46.46); (py "VRO", Num.lit 36.31);
            (py "GGS", Num.lit 28.34); (py "CATENARE", Num.lit 14.25);
            (py "GOR", Num.lit 13.16); (py "VAO", Num.lit 9.07);
            (py "GRB", Num.lit 0.50); (py "CEDI", Num.lit 0.38)] /\
    (forall l, Permutation rs l -> descending l ->
       map regionCode l
       = map py ["VRC"; "VRO"; "GGS"; "CATENARE"; "GOR"; "VAO"; "GRB"; "CEDI"]) /\
    panel_de_control (fresh flag) = (Ok tt, w') /\
    bar_axes (page w')
    = repeat
        (map py ["VRC"; "VRO"; "GGS"; "CATENARE"; "GOR"; "VAO"; "GRB"; "CEDI"])
        3.
Proof.
  intro flag.
  do 4 eexists.
  split; [vm_compute; reflexivity |].
  split; [vm_compute; reflexivity |].
  split; [vm_compute; reflexivity |].
  split; [vm_compute; reflexivity |].
  split.
  - intros l P D.
    match type of P with
    | Permutation [?r0; ?r1; ?r2; ?r3; ?r4; ?r5; ?r6; ?r7] _ =>
        assert (Permutation [r2; r4; r3; r1; r5; r6; r0; r7] l) as P'
          by (eapply Permutation_trans; [| exact P]; repeat perm_step);
        assert ([r2; r4; r3; r1; r5; r6; r0; r7] = l) as <-
    end.
    + apply (sorted_perm_unique RegionRecord
               (fun a b => PrimFloat.ltb (total b) (total a) = true)); auto.
      * intros x y Hx Hy Hxy Hyx.
        cases_in Hx; cases_in Hy; subst x y;
          vm_compute in Hxy, Hyx; discriminate.
      * repeat constructor.
    + reflexivity.
  - split; vm_compute; reflexivity.
Qed.

(** ** Top contributor *)

Section Argmax.
Variable x : float.
Variable post : list float.

(** Once [x] is the running maximum, later values that do not exceed it
    leave the answer alone. *)
Lemma argmax_from_keeps (i k : nat) :
  Forall (fun e => PrimFloat.leb e x = true) post ->
  argmax_from x i k post = i.
Proof.
  intro H. revert k.
  induction H as [| e l He _ IH]; intro k; simpl.
  - reflexivity.
  - rewrite He. simpl. apply IH.
Qed.

(** Earlier values that [x] exceeds are all replaced when [x] is met. *)
Lemma argmax_from_reaches (pre : list float) :
  forall best besti k,
    PrimFloat.leb x best = false ->
    Forall (fun e => PrimFloat.leb x e = false) pre ->
    argmax_from best besti k (pre ++ x :: post)
    = argmax_from x (k + List.length pre) (S (k + List.length pre)) post.
Proof.
  induction pre as [| e pre' IH]; intros best besti k Hb Hpre; simpl.
  - rewrite Hb. simpl. now rewrite Nat.add_0_r.
  - apply Forall_inv in Hpre as He.
    apply Forall_inv_tail in Hpre.
    replace (k + S (List.length pre'))%nat
      with (S k + List.length pre')%nat by lia.
    destruct (negb (PrimFloat.leb e best)); now apply IH.
Qed.

(** [argmax] returns the position of the first largest value. *)
Lemma argmax_first_largest (pre : list float) :
  Forall (fun e => PrimFloat.leb x e = false) pre ->
  Forall (fun e => PrimFloat.leb e x = true) post ->
  argmax (pre ++ x :: post) = Some (List.length pre).
Proof.
  intros Hpre Hpost.
  destruct pre as [| e pre']; simpl.
  - now rewrite argmax_from_keeps.
  - apply Forall_inv in Hpre as He.
    apply Forall_inv_tail in Hpre.
    rewrite argmax_from_reaches by assumption.
    now rewrite argmax_from_keeps.
Qed.
End Argmax.

(** C7. The top contributor is the row of the first largest total: when a
    total exceeds every earlier one and no later one exceeds it (ties
    included), [top_regional] is the row at its position.  On the regional
    table this is VRC with 46.46: no total is above it, the two earlier
    ones are below, and the panel reports VRC and 46.46. *)
Theorem top_contributor_first_maximum :
  (forall df pre x post,
     lookup "Total" (columns df) = Some (CFloat (pre ++ x :: post)) ->
     existsb PrimFloat.is_nan (pre ++ x :: post) = false ->
     Forall (fun e => PrimFloat.leb x e = false) pre ->
     Forall (fun e => PrimFloat.leb e x = true) post ->
     top_regional df = loc df (nth (List.length pre) (index df) 0%nat)) /\
  (forall flag,
   exists df rs top w',
     get_regional_data = Ok df /\
     region_records df = Some rs /\
     top_regional df = Ok top /\
     lookup "Regional" top = Some (VStr (py "VRC")) /\
     lookup "Total" top = Some (VFloat (Num.lit 46.46)) /\
     Forall (fun r => PrimFloat.leb (total r) (Num.lit 46.46) = true) rs /\
     Forall (fun r => PrimFloat.ltb (total r) (Num.lit 46.46) = true)
       (firstn 2 rs) /\
     nth_error rs 2
     = Some (mk_RegionRecord (py "VRC") (Num.lit 46.46)
               (PrimFloat.mul (Num.lit 46.46) (Num.lit 0.75))
               (PrimFloat.mul (Num.lit 46.46) (Num.lit 0.15))
               (PrimFloat.mul (Num.lit 46.46) (Num.lit 0.10)) 1858) /\
     panel_de_control (fresh flag) = (Ok tt, w') /\
     In (st_error [V (VStr (py "VRC"))]) (page w') /\
     In (st_caption [T "Emisión: "; V (VFloat (Num.lit 46.46)); T " tCO2e"])
        (page w')).
Proof.
  assert (forall df pre x post,
     lookup "Total" (columns df) = Some (CFloat (pre ++ x :: post)) ->
     existsb PrimFloat.is_nan (pre ++ x :: post) = false ->
     Forall (fun e => PrimFloat.leb x e = false) pre ->
     Forall (fun e => PrimFloat.leb e x = true) post ->
     top_regional df = loc df (nth (List.length pre) (index df) 0%nat)) as G.
  { intros df pre x post Hcol Hnan Hpre Hpost.
    unfold top_regional, getitem. rewrite Hcol. simpl.
    unfold idxmax. simpl. rewrite Hnan.
    now rewrite argmax_first_largest. }
  split; [exact G |].
  intro flag.
  do 4 eexists.
  split; [vm_compute; reflexivity |].
  split; [vm_compute; reflexivity |].
  split.
  { match goal with
    | |- top_regional ?df = _ =>
        rewrite (G df [Num.lit 0.50; Num.lit 14.25] (Num.lit 46.46)
                   [Num.lit 28.34; Num.lit 36.31; Num.lit 13.16;
                    Num.lit 9.07; Num.lit 0.38])
    end.
    - vm_compute. reflexivity.
    - vm_compute. reflexivity.
    - vm_compute. reflexivity.
    - repeat constructor.
    - repeat constructor. }
  split; [reflexivity |].
  split; [vm_compute; reflexivity |].
  split; [repeat constructor |].
  split; [repeat constructor |].
  split; [vm_compute; reflexivity |].
  split; [vm_compute; reflexivity |].
  split; simpl; repeat (first [left; vm_compute; reflexivity | right]).
Qed.

Lemma top_contributor_first_maximum_witness :
  exists df,
    get_regional_data = Ok df /\ top_regional df = loc df 2%nat.
Proof.
  eexists. split; [vm_compute; reflexivity |].
  match goal with
  | |- top_regional ?df = _ =>
      refine (proj1 top_contributor_first_maximum df
                [Num.lit 0.50; Num.lit 14.25] (Num.lit 46.46)
                [Num.lit 28.34; Num.lit 36.31; Num.lit 13.16;
                 Num.lit 9.07; Num.lit 0.38] _ _ _ _)
  end.
  - vm_compute. reflexivity.
  - vm_compute. reflexivity.
  - repeat constructor.
  - repeat constructor.
Defined.

(** ** Decision tree *)

Lemma import_success_sets_flag : import_graphviz None = Ok true.
Proof. reflexivity. Qed.

Ltac flatten_apps := rewrite <- ?app_assoc; cbn [app]; reflexivity.

Ltac walk_calls E calls :=
  lazymatch calls with
  | ?c :: ?rest =>
      destruct (graph_fault E c) as [? |] eqn:?;
      [flatten_apps | walk_calls E rest]
  | [] => flatten_apps
  end.

(** The drawing block stops at the first call that fails, having put
    nothing on the page; with no failure it draws the finished tree. *)
Lemma draw_tree_run (E : env) (w : world) :
  draw_tree E w
  = match first_fault E tree_calls with
    | Some (n, e) =>
        (Raise e,
         mk_world (has_graphviz w) (store w) (page w)
           (graph_calls w ++ firstn (S n) tree_calls))
    | None =>
        (Ok tt,
         mk_world (has_graphviz w) (store w)
           (page w ++ [st_graphviz_chart the_tree])
           (graph_calls w ++ tree_calls))
    end.
Proof.
  destruct w as [flag st pg gc].
  cbv [draw_tree Digraph_new attr node edge graphviz_chart graph_op emit bind
       ret first_fault tree_calls firstn
       has_graphviz store page graph_calls graph_attr nodes edges].
  let l := eval cbv [tree_calls] in tree_calls in walk_calls E l.
Qed.

Lemma first_fault_found (E : env) (calls : list graph_call) :
  (exists c, In c calls /\ graph_fault E c <> None) ->
  exists n c e,
    first_fault E calls = Some (n, e) /\
    nth_error calls n = Some c /\ graph_fault E c = Some e.
Proof.
  induction calls as [| c0 calls IH]; intros (c & Hin & Hc).
  - destruct Hin.
  - simpl. destruct (graph_fault E c0) as [e0 |] eqn:H0.
    + exists 0%nat, c0, e0. auto.
    + destruct IH as (n & c' & e & Hf & Hn & He).
      * destruct Hin as [<- | Hin]; [congruence | eauto].
      * rewrite Hf. exists (S n), c', e. auto.
Qed.

Lemma first_fault_none (E : env) (calls : list graph_call) :
  (forall c, In c calls -> graph_fault E c = None) ->
  first_fault E calls = None.
Proof.
  induction calls as [| c0 calls IH]; intro H; simpl.
  - reflexivity.
  - rewrite (H c0) by now left.
    rewrite IH; [reflexivity |]. intros c Hc. apply H. now right.
Qed.

(** With the library present and no failing call, the view draws the
    tree. *)
Fact tree_drawn_when_calls_succeed (E : env) (w : world) :
  has_graphviz w = true ->
  (forall c, In c tree_calls -> graph_fault E c = None) ->
  ingenieria_de_preguntas E w
  = (Ok tt,
     mk_world true (store w)
       (page w ++ tree_header ++ [st_graphviz_chart the_tree] ++ tree_footer)
       (graph_calls w ++ tree_calls)).
Proof.
  intros Hflag Hnone.
  destruct w as [flag st pg gc]. simpl in Hflag. subst flag.
  cbv [ingenieria_de_preguntas bind emit read_flag try_except
       has_graphviz store page graph_calls].
  rewrite draw_tree_run, (first_fault_none _ _ Hnone).
  cbv [has_graphviz store page graph_calls tree_header tree_footer].
  flatten_apps.
Qed.

Lemma tree_drawn_when_calls_succeed_witness :
  shown (page (snd (ingenieria_de_preguntas
                      (mk_env [] (fun _ => None)) (fresh true)))) = [] /\
  fst (ingenieria_de_preguntas (mk_env [] (fun _ => None)) (fresh true))
  = Ok tt.
Proof.
  rewrite (tree_drawn_when_calls_succeed
             (mk_env [] (fun _ => None)) (fresh true) eq_refl
             (fun c _ => eq_refl)).
  split; reflexivity.
Defined.

(** An exception outside [Exception] is not caught by the view. *)
Fact interrupt_not_caught (E : env) (w : world) (n : nat) (e : exn) :
  has_graphviz w = true ->
  first_fault E tree_calls = Some (n, e) ->
  is_Exception (exn_class e) = false ->
  fst (ingenieria_de_preguntas E w) = Raise e.
Proof.
  intros Hflag Hf He.
  destruct w as [flag st pg gc]. simpl in Hflag. subst flag.
  cbv [ingenieria_de_preguntas bind emit read_flag try_except
       has_graphviz store page graph_calls].
  rewrite draw_tree_run, Hf, He. reflexivity.
Qed.

Lemma interrupt_not_caught_witness :
  fst (ingenieria_de_preguntas
         (mk_env [] (fun _ => Some (mk_exn KeyboardInterrupt "interrupted")))
         (fresh true))
  = Raise (mk_exn KeyboardInterrupt "interrupted").
Proof.
  exact (interrupt_not_caught
           (mk_env [] (fun _ => Some (mk_exn KeyboardInterrupt "interrupted")))
           (fresh true) 0%nat (mk_exn KeyboardInterrupt "interrupted")
           eq_refl eq_refl eq_refl).
Defined.

Lemma text_tree_run (E : env) (w : world) :
  has_graphviz w = false ->
  ingenieria_de_preguntas E w
  = (Ok tt,
     mk_world false (store w)
       (page w ++ tree_header ++ text_elements ++ tree_footer)
       (graph_calls w)).
Proof.
  intro Hflag.
  destruct w as [flag st pg gc]. simpl in Hflag. subst flag.
  cbv [ingenieria_de_preguntas text_tree bind emit read_flag
       has_graphviz store page graph_calls
       tree_header text_elements tree_footer].
  flatten_apps.
Qed.

(** C5. With the availability flag false, the decision-tree view puts on
    the page the notice that the library was not detected, the notice
    that the tree is simplified to text, and the textual flow; it makes no
    call into the drawing library and draws no chart, whatever those calls
    would have done. *)
Theorem text_tree_when_unavailable (E : env) (w : world) :
  has_graphviz w = false ->
  exists w',
    ingenieria_de_preguntas E w = (Ok tt, w') /\
    page w'
    = page w ++ tree_header
      ++ [st_warning "⚠️ Librería Graphviz no detectada.";
          st_info "El sistema funciona correctamente, pero la visualización del árbol lógico se ha simplificado a texto.";
          st_code "Flujo Lógico:\n1. ¿Propiedad Massy? -> SÍ (A1) / NO (A3)\n2. ¿Tipo Vehículo? -> Configuración Factor\n3. ¿Combustible? -> Diésel/Gasolina"]
      ++ tree_footer /\
    graph_calls w' = graph_calls w /\
    existsb is_graphviz_chart (page w') = existsb is_graphviz_chart (page w) /\
    has_graphviz w' = false /\
    store w' = store w.
Proof.
  intro Hflag.
  rewrite (text_tree_run E w Hflag).
  eexists. split; [reflexivity |].
  cbv [has_graphviz store page graph_calls].
  split; [reflexivity |].
  split; [reflexivity |].
  split; [| split; reflexivity].
  unfold tree_header, tree_footer, text_elements.
  rewrite !existsb_app. cbn [existsb is_graphviz_chart].
  now rewrite !orb_false_r.
Qed.

Lemma text_tree_when_unavailable_witness :
  exists w',
    ingenieria_de_preguntas
      (mk_env [] (fun _ => Some (mk_exn RuntimeError "dot"))) (fresh false)
    = (Ok tt, w') /\
    graph_calls w' = [].
Proof.
  destruct (text_tree_when_unavailable
              (mk_env [] (fun _ => Some (mk_exn RuntimeError "dot")))
              (fresh false) eq_refl)
    as (w' & Hrun & _ & Hcalls & _).
  exists w'. split; [exact Hrun | exact Hcalls].
Defined.

Lemma fallback_run (E : env) (w : world) (n : nat) (e : exn) :
  has_graphviz w = true ->
  first_fault E tree_calls = Some (n, e) ->
  is_Exception (exn_class e) = true ->
  ingenieria_de_preguntas E w
  = (Ok tt,
     mk_world true (store w)
       (page w ++ tree_header ++ fallback_elements ++ tree_footer)
       (graph_calls w ++ firstn (S n) tree_calls)).
Proof.
  intros Hflag Hf Hcaught.
  destruct w as [flag st pg gc]. simpl in Hflag. subst flag.
  cbv [ingenieria_de_preguntas bind emit read_flag try_except
       has_graphviz store page graph_calls].
  rewrite draw_tree_run, Hf, Hcaught.
  cbv [render_fallback bind emit has_graphviz store page graph_calls
       tree_header fallback_elements tree_footer].
  flatten_apps.
Qed.

(** C6. With the flag true, when a call of the drawing block fails and
    every failure is an [Exception], the view ends normally: the page
    gets a warning and the textual summary of the flow in place of the
    chart, no exception leaves the view, and the flag is still true. *)
Theorem render_fault_falls_back (E : env) (w : world) :
  has_graphviz w = true ->
  (exists c, In c tree_calls /\ graph_fault E c <> None) ->
  (forall c e, In c tree_calls -> graph_fault E c = Some e ->
               is_Exception (exn_class e) = true) ->
  exists w',
    ingenieria_de_preguntas E w = (Ok tt, w') /\
    page w'
    = page w ++ tree_header
      ++ [st_warning "El módulo de gráficos no pudo renderizar el diagrama.";
          st_info "Flujo: Propiedad -> Sí (Alcance 1) / No (Alcance 3) -> Vehículo -> Combustible."]
      ++ tree_footer /\
    existsb is_graphviz_chart (page w') = existsb is_graphviz_chart (page w) /\
    has_graphviz w' = true /\
    store w' = store w.
Proof.
  intros Hflag Hfault Hexc.
  destruct (first_fault_found E tree_calls Hfault) as (n & c & e & Hf & Hn & He).
  assert (is_Exception (exn_class e) = true) as Hcaught
      by (apply (Hexc c); [eapply nth_error_In; exact Hn | exact He]).
  rewrite (fallback_run E w n e Hflag Hf Hcaught).
  eexists. split; [reflexivity |].
  cbv [has_graphviz store page graph_calls].
  split; [reflexivity |].
  split; [| split; reflexivity].
  unfold tree_header, tree_footer, fallback_elements.
  rewrite !existsb_app. cbn [existsb is_graphviz_chart].
  now rewrite !orb_false_r.
Qed.

Lemma render_fault_falls_back_witness :
  exists w',
    ingenieria_de_preguntas
      (mk_env []
         (fun c => match c with
                   | call_graphviz_chart =>
                       Some (mk_exn RuntimeError "failed to execute dot")
                   | _ => None
                   end))
      (fresh true)
    = (Ok tt, w') /\
    has_graphviz w' = true.
Proof.
  destruct (render_fault_falls_back
              (mk_env []
                 (fun c => match c with
                           | call_graphviz_chart =>
                               Some (mk_exn RuntimeError "failed to execute dot")
                           | _ => None
                           end))
              (fresh true) eq_refl)
    as (w' & Hrun & _ & _ & Hflag & _).
  - exists call_graphviz_chart. split.
    + simpl. repeat (first [left; reflexivity | right]).
    + simpl. discriminate.
  - intros c e Hin Hc. destruct c; simpl in Hc; try discriminate.
    injection Hc as <-. reflexivity.
  - exists w'. split; [exact Hrun | exact Hflag].
Defined.

(** ** Patterns: the matcher decides the matching relation *)

Section Matcher.
Import Sre.

Lemma matches_nil_nullable (r : re) (s : str) :
  matches r s -> s = [] -> nullable r = true.
Proof.
  induction 1 as [ | | | r1 r2 s1 s2 _ IH1 _ IH2 | r1 r2 s _ IH
                   | r1 r2 s _ IH | r s _ IH | | g r s _ IH | |
                   | g r s1 s2 _ IH1 _ IH2 ];
    intro Hnil; simpl; try discriminate; auto.
  - apply app_eq_nil in Hnil as [-> ->]. now rewrite IH1, IH2.
  - now rewrite IH.
  - rewrite IH by assumption. apply orb_true_r.
  - apply app_eq_nil in Hnil as [-> _]. auto.
Qed.

Lemma nullable_matches_nil (r : re) :
  nullable r = true -> matches r [].
Proof.
  induction r as [ | | c | | r1 IH1 r2 IH2 | r1 IH1 r2 IH2 | q g r IH | r IH ];
    simpl; intro H; try discriminate.
  - constructor.
  - apply andb_prop in H as [H1 H2].
    change (@nil N) with (@nil N ++ []). constructor; auto.
  - apply orb_prop in H as [H | H]; [apply MAltL | apply MAltR]; auto.
  - destruct q.
    + apply MOpt0.
    + apply MStar0.
    + change (@nil N) with (@nil N ++ []).
      apply MPlus; [auto | apply MStar0].
  - constructor. auto.
Qed.

Lemma MCat_cons r1 r2 t s1 s2 :
  matches r1 (t :: s1) -> matches r2 s2 ->
  matches (Cat r1 r2) (t :: s1 ++ s2).
Proof. intros H1 H2. exact (@MCat r1 r2 (t :: s1) s2 H1 H2). Qed.

Lemma MStarS_cons g r t s1 s2 :
  matches r (t :: s1) -> matches (Repeat Q0n g r) s2 ->
  matches (Repeat Q0n g r) (t :: s1 ++ s2).
Proof. intros H1 H2. exact (@MStarS g r (t :: s1) s2 H1 H2). Qed.

Lemma MPlus_cons g r t s1 s2 :
  matches r (t :: s1) -> matches (Repeat Q0n g r) s2 ->
  matches (Repeat Q1n g r) (t :: s1 ++ s2).
Proof. intros H1 H2. exact (@MPlus g r (t :: s1) s2 H1 H2). Qed.

Lemma deriv_sound (t : N) (r : re) :
  forall s, matches (deriv t r) s -> matches r (t :: s).
Proof.
  induction r as [ | | c | | r1 IH1 r2 IH2 | r1 IH1 r2 IH2 | q g r IH | r IH ];
    simpl; intros s H.
  - inversion H.
  - inversion H.
  - destruct (lit_matches c t) eqn:Hc; inversion H; subst. now constructor.
  - destruct (any_matches t) eqn:Hc; inversion H; subst. now constructor.
  - destruct (nullable r1) eqn:Hn.
    + inversion H as [ | | | | ? ? ? H' | ? ? ? H' | | | | | | ]; subst.
      * inversion H'; subst. apply MCat_cons; auto.
      * change (t :: s) with ([] ++ t :: s).
        constructor; [now apply nullable_matches_nil | auto].
    + inversion H; subst. apply MCat_cons; auto.
  - inversion H; subst; [apply MAltL | apply MAltR]; auto.
  - destruct q.
    + apply MOpt1. auto.
    + inversion H; subst. apply MStarS_cons; auto.
    + inversion H; subst. apply MPlus_cons; auto.
  - constructor. auto.
Qed.

Lemma deriv_complete (r : re) (u : str) :
  matches r u -> forall t s, u = t :: s -> matches (deriv t r) s.
Proof.
  induction 1 as [ | c t0 Hc | t0 Hc | r1 r2 s1 s2 H1 IH1 H2 IH2
                   | r1 r2 s0 _ IH | r1 r2 s0 _ IH | r s0 _ IH
                   | | g r s0 _ IH | | g r s1 s2 H1 IH1 H2 IH2
                   | g r s1 s2 H1 IH1 H2 IH2 ];
    intros t s Hu; simpl; try discriminate.
  - injection Hu as -> <-. rewrite Hc. constructor.
  - injection Hu as -> <-. rewrite Hc. constructor.
  - destruct s1 as [| a s1'].
    + simpl in Hu. subst s2.
      rewrite (matches_nil_nullable _ _ H1 eq_refl).
      apply MAltR. now apply IH2.
    + injection Hu as -> <-.
      destruct (nullable r1); [apply MAltL |]; constructor; auto.
  - apply MAltL. auto.
  - apply MAltR. auto.
  - auto.
  - auto.
  - destruct s1 as [| a s1'].
    + simpl in Hu. exact (IH2 _ _ Hu).
    + injection Hu as -> <-. constructor; auto.
  - destruct s1 as [| a s1'].
    + simpl in Hu. exact (IH2 _ _ Hu).
    + injection Hu as -> <-. constructor; auto.
Qed.

Lemma match_prefix_spec (s : str) :
  forall r,
    match_prefix r s = true <->
    exists s1 s2, s = s1 ++ s2 /\ matches r s1.
Proof.
  induction s as [| t s IH]; intro r; simpl.
  - rewrite orb_false_r. split.
    + intro H. exists [], []. split; [reflexivity |].
      now apply nullable_matches_nil.
    + intros (s1 & s2 & Hs & Hm).
      symmetry in Hs. apply app_eq_nil in Hs as [-> _].
      now apply (matches_nil_nullable _ _ Hm).
  - split.
    + intro H. apply orb_prop in H as [H | H].
      * exists [], (t :: s). split; [reflexivity |].
        now apply nullable_matches_nil.
      * apply IH in H as (s1 & s2 & -> & Hm).
        exists (t :: s1), s2. split; [reflexivity |].
        now apply deriv_sound.
    + intros (s1 & s2 & Hs & Hm).
      destruct s1 as [| a s1'].
      * now rewrite (matches_nil_nullable _ _ Hm eq_refl).
      * injection Hs as <- ->.
        apply orb_true_iff. right. apply IH.
        exists s1', s2. split; [reflexivity |].
        now apply (deriv_complete _ _ Hm).
Qed.

(** [search] holds exactly when some stretch of the subject matches the
    pattern. *)
Lemma search_spec (r : re) (s : str) :
  search r s = true <->
  exists pre mid post, s = pre ++ mid ++ post /\ matches r mid.
Proof.
  induction s as [| t s IH]; cbn [search].
  - rewrite orb_false_r, match_prefix_spec. split.
    + intros (s1 & s2 & Hs & Hm). now exists [], s1, s2.
    + intros (pre & mid & post & Hs & Hm).
      symmetry in Hs. apply app_eq_nil in Hs as [-> Hs].
      apply app_eq_nil in Hs as [-> ->]. now exists [], [].
  - rewrite orb_true_iff, match_prefix_spec, IH. split.
    + intros [(s1 & s2 & Hs & Hm) | (pre & mid & post & -> & Hm)].
      * now exists [], s1, s2.
      * now exists (t :: pre), mid, post.
    + intros (pre & mid & post & Hs & Hm).
      destruct pre as [| a pre'].
      * left. now exists mid, post.
      * injection Hs as <- ->. right. now exists pre', mid, post.
Qed.
End Matcher.

(** ** Factor manager *)

Lemma factors_loaded : get_factors_data = Ok factor_table.
Proof. vm_compute. reflexivity. Qed.

Lemma factor_table_shape :
  index factor_table = [0; 1; 2; 3; 4]%nat /\
  getitem factor_table "Nombre"
  = Ok (mk_Series [0; 1; 2; 3; 4]%nat (CStr factor_names)) /\
  ids factor_table
  = map (fun s => Some (VStr (py s)))
      ["F-001"; "F-002"; "F-003"; "F-004"; "F-005"].
Proof. repeat split; vm_compute; reflexivity. Qed.

Section ListFacts.
Variable A : Type.

Lemma subseq_refl (l : list A) : subseq l l.
Proof. induction l; constructor; assumption. Qed.

Lemma nil_subseq (l : list A) : subseq [] l.
Proof. induction l; constructor; assumption. Qed.

Lemma select_subseq (m : list bool) (l : list A) : subseq (select m l) l.
Proof.
  revert m. induction l as [| a l IH]; intros [| [|] m]; simpl.
  - constructor.
  - constructor.
  - constructor.
  - apply nil_subseq.
  - apply subseq_keep, IH.
  - apply subseq_skip, IH.
Qed.

Lemma subseq_In (l1 l2 : list A) :
  subseq l1 l2 -> forall a, In a l1 -> In a l2.
Proof.
  induction 1 as [| x l1 l2 _ IH | x l1 l2 _ IH]; intros a Ha.
  - destruct Ha.
  - right. auto.
  - destruct Ha as [<- | Ha]; [now left | right; auto].
Qed.

Lemma subseq_length (l1 l2 : list A) :
  subseq l1 l2 -> (List.length l1 <= List.length l2)%nat.
Proof. induction 1; simpl; lia. Qed.

Lemma nth_error_snoc (l : list A) (a : A) :
  nth_error (l ++ [a]) (List.length l) = Some a.
Proof. induction l; simpl; auto. Qed.

Lemma firstn_snoc (l l' : list A) :
  firstn (List.length l) (l ++ l') = l.
Proof. induction l; simpl; [now destruct l' | now f_equal]. Qed.
End ListFacts.

(** Masking the factor frame keeps the rows the mask marks, as they are
    and in their order. *)
Lemma mask_rows (m : list bool) (d : DataFrame) :
  List.length m = 5%nat ->
  getitem_mask factor_table (mk_Series [0; 1; 2; 3; 4]%nat (CBool m)) = Ok d ->
  rows d = select m (rows factor_table).
Proof.
  intros Hlen Hmask.
  destruct m as [| b1 [| b2 [| b3 [| b4 [| b5 [| ? ?]]]]]]; try discriminate Hlen.
  destruct b1, b2, b3, b4, b5;
    vm_compute in Hmask; injection Hmask as <-; vm_compute; reflexivity.
Qed.

Lemma mask_defined (m : list bool) :
  exists d,
    getitem_mask factor_table (mk_Series [0; 1; 2; 3; 4]%nat (CBool m)) = Ok d.
Proof.
  unfold getitem_mask. cbn [s_data s_index].
  replace (index factor_table) with [0; 1; 2; 3; 4]%nat
    by (vm_compute; reflexivity).
  replace (same_index [0; 1; 2; 3; 4]%nat [0; 1; 2; 3; 4]%nat) with true
    by (vm_compute; reflexivity).
  eexists. reflexivity.
Qed.

(** The filter step, case by case: no filter, a pattern that compiles, a
    pattern that does not. *)
Lemma factor_view_cases (f : str) :
  factor_view f
  = if nonempty f then
      match Sre.compile f with
      | Ok r =>
          getitem_mask factor_table
            (mk_Series [0; 1; 2; 3; 4]%nat
               (CBool (map (Sre.search r) factor_names)))
      | Raise e => Raise e
      | Unmodelled => Unmodelled
      end
    else Ok factor_table.
Proof.
  unfold factor_view. rewrite factors_loaded. cbn [rbind].
  destruct (nonempty f); [| reflexivity].
  destruct factor_table_shape as (_ & -> & _). cbn [rbind].
  unfold str_contains. cbn [s_data s_index].
  destruct (Sre.compile f); reflexivity.
Qed.

(** The view as a whole: it shows what [factor_view] gives, or stops at
    the filter step with the table widget not yet emitted. *)
Lemma gestor_run (E : env) (w : world) :
  gestor_de_factores E w
  = match factor_view (filtro E) with
    | Ok d =>
        (Ok tt,
         mk_world (has_graphviz w)
           (store w ++ factor_table
              :: (if nonempty (filtro E) then [d] else []))
           (page w ++ factor_view_elements d)
           (graph_calls w))
    | Raise e =>
        (Raise e,
         mk_world (has_graphviz w) (store w ++ [factor_table])
           (page w ++ firstn 2 (factor_view_elements factor_table))
           (graph_calls w))
    | Unmodelled =>
        (Unmodelled,
         mk_world (has_graphviz w) (store w ++ [factor_table])
           (page w ++ firstn 2 (factor_view_elements factor_table))
           (graph_calls w))
    end.
Proof.
  destruct w as [flag st pg gc].
  rewrite factor_view_cases.
  unfold gestor_de_factores.
  cbv [bind lift alloc emit deref ret has_graphviz store page graph_calls].
  rewrite factors_loaded. cbv beta iota.
  destruct (nonempty (filtro E)).
  - rewrite nth_error_snoc.
    destruct factor_table_shape as (_ & -> & _).
    unfold str_contains. cbn [s_data s_index].
    destruct (Sre.compile (filtro E)) as [r | e |]; cbn [rbind].
    + rewrite nth_error_snoc.
      destruct (mask_defined (map (Sre.search r) factor_names)) as [d ->].
      rewrite nth_error_snoc.
      unfold factor_view_elements. rewrite <- ?app_assoc. reflexivity.
    + unfold factor_view_elements. cbn [firstn].
      rewrite <- ?app_assoc. reflexivity.
    + unfold factor_view_elements. cbn [firstn].
      rewrite <- ?app_assoc. reflexivity.
  - rewrite nth_error_snoc.
    unfold factor_view_elements. rewrite <- ?app_assoc. reflexivity.
Qed.

Lemma shown_app (p q : list element) : shown (p ++ q) = shown p ++ shown q.
Proof.
  induction p as [| e p IH]; simpl; [reflexivity |].
  destruct e; simpl; now rewrite ?IH.
Qed.

Lemma shows_of_view (f : str) (d : DataFrame) :
  factor_view f = Ok d -> shows f d.
Proof.
  intros Hv gf w. rewrite gestor_run. cbn [filtro]. rewrite Hv.
  eexists. split; [reflexivity |].
  cbn [page]. now rewrite shown_app.
Qed.

(** ** The factor view over any pattern engine *)

(** The filter step, case by case: no filter, a pattern the engine
    accepts, a pattern it rejects. *)
Lemma factor_view_by_cases (eng : engine) (f : str) :
  factor_view_by eng f
  = if nonempty f then
      match eng f with
      | Ok test =>
          getitem_mask factor_table
            (mk_Series [0; 1; 2; 3; 4]%nat (CBool (map test factor_names)))
      | Raise e => Raise e
      | Unmodelled => Unmodelled
      end
    else Ok factor_table.
Proof.
  unfold factor_view_by. rewrite factors_loaded. cbn [rbind].
  destruct (nonempty f); [| reflexivity].
  destruct factor_table_shape as (_ & -> & _). cbn [rbind].
  unfold str_contains_by. cbn [s_data s_index].
  destruct (eng f); reflexivity.
Qed.

Lemma gestor_by_run (eng : engine) (E : env) (w : world) :
  gestor_de_factores_by eng E w
  = match factor_view_by eng (filtro E) with
    | Ok d =>
        (Ok tt,
         mk_world (has_graphviz w)
           (store w ++ factor_table
              :: (if nonempty (filtro E) then [d] else []))
           (page w ++ factor_view_elements d)
           (graph_calls w))
    | Raise e =>
        (Raise e,
         mk_world (has_graphviz w) (store w ++ [factor_table])
           (page w ++ firstn 2 (factor_view_elements factor_table))
           (graph_calls w))
    | Unmodelled =>
        (Unmodelled,
         mk_world (has_graphviz w) (store w ++ [factor_table])
           (page w ++ firstn 2 (factor_view_elements factor_table))
           (graph_calls w))
    end.
Proof.
  destruct w as [flag st pg gc].
  rewrite factor_view_by_cases.
  unfold gestor_de_factores_by.
  cbv [bind lift alloc emit deref ret has_graphviz store page graph_calls].
  rewrite factors_loaded. cbv beta iota.
  destruct (nonempty (filtro E)).
  - rewrite nth_error_snoc.
    destruct factor_table_shape as (_ & -> & _).
    unfold str_contains_by. cbn [s_data s_index].
    destruct (eng (filtro E)) as [test | e |]; cbn [rbind].
    + rewrite nth_error_snoc.
      destruct (mask_defined (map test factor_names)) as [d ->].
      rewrite nth_error_snoc.
      unfold factor_view_elements. rewrite <- ?app_assoc. reflexivity.
    + unfold factor_view_elements. cbn [firstn].
      rewrite <- ?app_assoc. reflexivity.
    + unfold factor_view_elements. cbn [firstn].
      rewrite <- ?app_assoc. reflexivity.
  - rewrite nth_error_snoc.
    unfold factor_view_elements. rewrite <- ?app_assoc. reflexivity.
Qed.

(** With the engine described in [Sre], this is the view as studied
    above. *)
Lemma factor_view_by_re (f : str) : factor_view_by re_search f = factor_view f.
Proof.
  rewrite factor_view_by_cases, factor_view_cases. unfold re_search.
  destruct (nonempty f); [| reflexivity].
  destruct (Sre.compile f); reflexivity.
Qed.

Lemma gestor_by_re (E : env) (w : world) :
  gestor_de_factores_by re_search E w = gestor_de_factores E w.
Proof. now rewrite gestor_by_run, gestor_run, factor_view_by_re. Qed.

(** The view itself never leaves what is described here: it ends normally
    or raises as soon as the engine's answer on the filter text is
    known. *)
Lemma gestor_by_described (eng : engine) (E : env) (w : world) :
  (nonempty (filtro E) = true -> described (eng (filtro E)) = true) ->
  described (fst (gestor_de_factores_by eng E w)) = true.
Proof.
  intro H. rewrite gestor_by_run, factor_view_by_cases.
  destruct (nonempty (filtro E)); [| reflexivity].
  destruct (eng (filtro E)) as [test | e |];
    [| reflexivity | discriminate (H eq_refl)].
  now destruct (mask_defined (map test factor_names)) as [d ->].
Qed.

(** What a successful filter step returns is the selection of the table's
    rows by a mask with one entry for each of them: the engine's test on
    each name, or every row when there is no filter. *)
Lemma factor_view_by_selects (eng : engine) (f : str) (d : DataFrame) :
  factor_view_by eng f = Ok d ->
  exists m,
    List.length m = 5%nat /\
    rows d = select m (rows factor_table) /\
    (nonempty f = true ->
     exists test, eng f = Ok test /\ m = map test factor_names).
Proof.
  rewrite factor_view_by_cases.
  destruct (nonempty f).
  - destruct (eng f) as [test | e |]; try discriminate.
    intro Hmask. exists (map test factor_names).
    split; [reflexivity |].
    split; [now apply mask_rows |].
    intros _. now exists test.
  - intros [= <-]. exists [true; true; true; true; true].
    split; [reflexivity |].
    split; [vm_compute; reflexivity | discriminate].
Qed.

(** C10. Whatever pattern engine [str.contains] runs the filter text on,
    and so for every filter text: whenever the factor view ends normally,
    the frame it shows is a subsequence of the factor table.  Its rows are
    the rows of the table selected by a mask with one entry for each, the
    engine's test on each name, so that each shown row is a row of the
    table, label and values unchanged, in the table's order.  The table
    object the view created is still in the store with its five rows, and
    the frames that were there before are untouched. *)
Theorem filter_result_is_subsequence
  (eng : engine) (E : env) (w w' : world) :
  gestor_de_factores_by eng E w = (Ok tt, w') ->
  exists d m,
    shown (page w') = shown (page w) ++ [d] /\
    List.length m = 5%nat /\
    rows d = select m (rows factor_table) /\
    (nonempty (filtro E) = true ->
     exists test, eng (filtro E) = Ok test /\ m = map test factor_names) /\
    subseq (rows d) (rows factor_table) /\
    (forall r, In r (rows d) -> In r (rows factor_table)) /\
    get_factors_data = Ok factor_table /\
    List.length (rows factor_table) = 5%nat /\
    nth_error (store w') (List.length (store w)) = Some factor_table /\
    firstn (List.length (store w)) (store w') = store w.
Proof.
  rewrite gestor_by_run.
  destruct (factor_view_by eng (filtro E)) as [d | e |] eqn:Hv;
    try discriminate.
  intros [= <-].
  destruct (factor_view_by_selects _ _ _ Hv) as (m & Hlen & Hrows & Htest).
  exists d, m. cbn [page store].
  assert (subseq (rows d) (rows factor_table)) as Hsub
      by (rewrite Hrows; apply select_subseq).
  split; [now rewrite shown_app |].
  split; [exact Hlen |].
  split; [exact Hrows |].
  split; [exact Htest |].
  split; [exact Hsub |].
  split; [intros r Hr; exact (subseq_In _ _ _ Hsub r Hr) |].
  split; [exact factors_loaded |].
  split; [vm_compute; reflexivity |].
  split.
  - rewrite nth_error_app2 by lia. now rewrite Nat.sub_diag.
  - apply firstn_snoc.
Qed.

Lemma filter_result_is_subsequence_witness :
  exists d,
    shown (page (snd (gestor_de_factores_by
                        (fun _ => Ok (existsb (fun c => (48 <=? c) && (c <=? 57))%N))
                        (mk_env (py "\d") (fun _ => None)) (fresh true))))
    = [d] /\
    subseq (rows d) (rows factor_table).
Proof.
  destruct (filter_result_is_subsequence
              (fun _ => Ok (existsb (fun c => (48 <=? c) && (c <=? 57))%N))
              (mk_env (py "\d") (fun _ => None)) (fresh true)
              (snd (gestor_de_factores_by
                      (fun _ => Ok (existsb (fun c => (48 <=? c) && (c <=? 57))%N))
                      (mk_env (py "\d") (fun _ => None)) (fresh true))))
    as (d & m & Hshown & _ & _ & _ & Hsub & _).
  - vm_compute. reflexivity.
  - exists d. split; [exact Hshown | exact Hsub].
Defined.

(** C1, as the script behaves.  The filter text "diesel" finds no factor:
    the only candidate is named "Diésel (ACPM)", and ignoring letter case
    does not make an "e" match the accented "é".  The same holds for
    "Diesel", the example the search box itself suggests; "diésel" finds
    F-001 alone.  The empty filter shows all five rows and "xyz" shows
    none, without an error. *)
Theorem diesel_filter_finds_no_factor :
  (exists d, shows (py "diesel") d /\ rows d = []) /\
  (exists d, shows (py "Diesel") d /\ rows d = []) /\
  (exists d, shows (py "diésel") d /\ ids d = [Some (VStr (py "F-001"))]) /\
  (shows [] factor_table /\ List.length (rows factor_table) = 5%nat) /\
  (exists d, shows (py "xyz") d /\ rows d = []).
Proof.
  repeat split;
    try (eexists; split; [apply shows_of_view |]);
    try apply shows_of_view;
    vm_compute; reflexivity.
Qed.

(** C9. The filter text is compiled as a regular expression.  The text
    "(" is not empty, and with it the view stops on [re.error] before the
    table is shown, although "(" occurs literally in the name
    "Diésel (ACPM)".  Conversely "di.sel" occurs in no name, yet as a
    pattern it finds F-001. *)
Theorem filter_is_a_pattern :
  exists f,
    f = py "(" /\
    nonempty f = true /\
    (forall gf w,
     exists e w',
       gestor_de_factores (mk_env f gf) w = (Raise e, w') /\
       exn_class e = re_error /\
       shown (page w') = shown (page w)) /\
    existsb (occurs_in f) factor_names = true /\
    existsb (occurs_in (py "di.sel")) factor_names = false /\
    (exists d, shows (py "di.sel") d /\ ids d = [Some (VStr (py "F-001"))]).
Proof.
  exists (py "(").
  split; [reflexivity |].
  split; [reflexivity |].
  split.
  - intros gf w. rewrite gestor_run. cbn [filtro].
    replace (factor_view (py "("))
      with (@Raise DataFrame (Sre.error "missing ), unterminated subpattern"))
      by (vm_compute; reflexivity).
    do 2 eexists. split; [reflexivity |].
    split; [reflexivity |].
    cbn [page]. rewrite shown_app. cbn. now rewrite app_nil_r.
  - split; [vm_compute; reflexivity |].
    split; [vm_compute; reflexivity |].
    eexists. split; [apply shows_of_view |]; vm_compute; reflexivity.
Qed.

(** ** Filters without special characters *)

Section PlainFilters.
Import Sre.

Lemma plain_step (c : N) :
  plain c = true ->
  outside c = false /\ ch_is "|" c = false /\ ch_is "(" c = false /\
  ch_is ")" c = false /\ quant_of c = None /\ ch_is "." c = false.
Proof.
  unfold plain, quant_of. intro H.
  apply negb_true_iff in H.
  unfold outside in *.
  repeat (apply orb_false_iff in H; destruct H as [H ?]).
  repeat match goal with
         | Hc : ch_is _ c = false |- _ => rewrite Hc; clear Hc
         end.
  repeat split; reflexivity.
Qed.

Lemma plain_in_fragment (p : str) :
  forallb plain p = true -> in_fragment p = true.
Proof.
  unfold in_fragment. intro H. apply negb_true_iff.
  induction p as [| c p IH]; simpl in *; [reflexivity |].
  apply andb_prop in H as [Hc Hp].
  destruct (plain_step c Hc) as (-> & _). auto.
Qed.

Lemma parse_plain (p : str) :
  forall acc,
    forallb plain p = true ->
    parse_loop p (mk_frame [] acc) []
    = Ok (sequence (rev (map Lit p) ++ acc)).
Proof.
  induction p as [| c p IH]; intros acc H; simpl in *.
  - reflexivity.
  - apply andb_prop in H as [Hc Hp].
    destruct (plain_step c Hc) as (_ & -> & -> & -> & -> & ->).
    unfold push. cbn [alts items].
    rewrite IH by assumption.
    now rewrite <- app_assoc.
Qed.

Lemma sequence_rev (l : list re) :
  sequence (rev l) = fold_right Cat Eps l.
Proof.
  unfold sequence.
  rewrite <- (fold_left_rev_right Cat (rev l) Eps).
  now rewrite rev_involutive.
Qed.

(** A text of plain characters compiles to the pattern of its
    characters. *)
Lemma compile_plain (p : str) :
  forallb plain p = true -> compile p = Ok (literal_pattern p).
Proof.
  intro H. unfold compile. rewrite (plain_in_fragment p H).
  unfold empty_frame. rewrite (parse_plain p [] H).
  rewrite app_nil_r, sequence_rev. f_equal.
  clear H. unfold literal_pattern.
  induction p as [| c p IH]; simpl; [reflexivity | now rewrite IH].
Qed.

Lemma matches_literal (p : str) :
  forall s,
    matches (literal_pattern p) s <->
    Forall2 (fun c t => lit_matches c t = true) p s.
Proof.
  induction p as [| c p IH]; intro s; simpl; split; intro H.
  - inversion H. constructor.
  - inversion H. constructor.
  - inversion H as [ | | | ? ? s1 s2 H1 H2 | | | | | | | | ]; subst.
    inversion H1; subst. simpl. constructor; [assumption | now apply IH].
  - inversion H as [| ? t ? s' Hc Hs]; subst.
    change (t :: s') with ([t] ++ s').
    constructor; [now constructor | now apply IH].
Qed.

(** For a filter text of plain characters, searching the compiled
    pattern is looking for the text as a substring, letter case
    ignored. *)
Lemma plain_search_is_substring (p x : str) :
  forallb plain p = true ->
  search (literal_pattern p) x = true <-> found_in p x.
Proof.
  intro H. rewrite search_spec. unfold found_in.
  split; intros (pre & mid & post & Hx & Hm); exists pre, mid, post;
    (split; [exact Hx | now apply matches_literal]).
Qed.

End PlainFilters.

(** For a non-empty filter text without special characters the view ends
    normally and shows exactly the rows of the table whose name contains
    the text, letter case ignored. *)
Theorem plain_filter_selects_by_substring (f : str) :
  nonempty f = true ->
  forallb plain f = true ->
  exists d m,
    shows f d /\
    rows d = select m (rows factor_table) /\
    Forall2 (fun b name => b = true <-> found_in f name) m factor_names.
Proof.
  intros Hne Hplain.
  pose proof (factor_view_cases f) as Hv.
  rewrite Hne, (compile_plain f Hplain) in Hv.
  destruct (mask_defined (map (Sre.search (literal_pattern f)) factor_names))
    as [d Hd].
  rewrite Hd in Hv.
  exists d, (map (Sre.search (literal_pattern f)) factor_names).
  split; [now apply shows_of_view |].
  split; [now apply mask_rows |].
  unfold factor_names.
  repeat (cbn [map]; constructor);
    now apply plain_search_is_substring.
Qed.

Lemma plain_filter_selects_by_substring_witness :
  exists d,
    shows (py "gasolina") d /\
    ids d = [Some (VStr (py "F-002"))].
Proof.
  destruct (plain_filter_selects_by_substring (py "gasolina") eq_refl eq_refl)
    as (d & m & Hshows & _ & _).
  exists d. split; [exact Hshows |].
  destruct (Hshows (fun _ => None) (fresh true)) as (w' & Hrun & Hshown).
  vm_compute in Hrun. injection Hrun as <-.
  vm_compute in Hshown. injection Hshown as <-.
  vm_compute. reflexivity.
Defined.

(** ** Letter case of the filter text *)

Ltac bool_to_prop :=
  repeat match goal with
         | H : (_ && _)%bool = true |- _ =>
             apply andb_true_iff in H; destruct H
         | H : (_ && _)%bool = false |- _ =>
             apply andb_false_iff in H; destruct H
         | H : negb _ = true |- _ => apply negb_true_iff in H
         | H : negb _ = false |- _ => apply negb_false_iff in H
         | H : (_ <=? _)%N = true |- _ => apply N.leb_le in H
         | H : (_ <=? _)%N = false |- _ => apply N.leb_gt in H
         | H : (_ =? _)%N = true |- _ => apply N.eqb_eq in H
         | H : (_ =? _)%N = false |- _ => apply N.eqb_neq in H
         end.

(** Case analysis on the innermost conditions first. *)
Ltac split_ifs :=
  repeat match goal with
         | |- context [if ?b then _ else _] =>
             lazymatch b with
             | context [if _ then _ else _] => fail
             | _ => destruct b eqn:?
             end
         end.

Lemma lower_idem (c : N) :
  unicode_tolower (unicode_tolower c) = unicode_tolower c.
Proof.
  unfold unicode_tolower, between. split_ifs; bool_to_prop; lia.
Qed.

(** Lower-casing never produces, and never removes, one of the characters
    that mean something in a pattern. *)
Lemma lower_keeps_special (k c : N) :
  In k [0x5C; 0x5B; 0x7B; 0x5E; 0x24; 0x7C; 0x28; 0x29; 0x3F; 0x2A; 0x2B; 0x2E]%N ->
  (unicode_tolower c =? k)%N = (c =? k)%N.
Proof.
  intro Hk. cases_in Hk; subst k;
    unfold unicode_tolower, between; split_ifs; bool_to_prop;
    try reflexivity; try lia;
    match goal with
    | |- (?a =? ?b)%N = (?c' =? ?d)%N =>
        destruct (N.eqb_spec a b), (N.eqb_spec c' d); try reflexivity; lia
    end.
Qed.

Section LowerCase.
Import Sre.

Lemma ch_is_lower (s : string) (c : N) :
  In (chr s) [0x5C; 0x5B; 0x7B; 0x5E; 0x24; 0x7C; 0x28; 0x29; 0x3F; 0x2A; 0x2B; 0x2E]%N ->
  ch_is s (unicode_tolower c) = ch_is s c.
Proof. intro H. unfold ch_is. now apply lower_keeps_special. Qed.

Ltac special := simpl; repeat (first [left; reflexivity | right]).

Lemma outside_lower (c : N) : outside (unicode_tolower c) = outside c.
Proof.
  unfold outside. rewrite !ch_is_lower by special. reflexivity.
Qed.

Lemma quant_of_lower (c : N) : quant_of (unicode_tolower c) = quant_of c.
Proof.
  unfold quant_of. rewrite !ch_is_lower by special. reflexivity.
Qed.

Lemma in_fragment_lower (p : str) :
  in_fragment (map unicode_tolower p) = in_fragment p.
Proof.
  unfold in_fragment. f_equal.
  induction p as [| c p IH]; simpl; [reflexivity |].
  now rewrite outside_lower, IH.
Qed.

Lemma lit_matches_lower (c t : N) :
  lit_matches (unicode_tolower c) t = lit_matches c t.
Proof. unfold lit_matches. now rewrite lower_idem. Qed.

Lemma nullable_lower (r : re) : nullable (lower_re r) = nullable r.
Proof.
  induction r as [ | | c | | r1 IH1 r2 IH2 | r1 IH1 r2 IH2 | q g r IH | r IH ];
    simpl; try reflexivity; try congruence.
  destruct q; auto.
Qed.

Lemma deriv_lower (t : N) (r : re) :
  deriv t (lower_re r) = lower_re (deriv t r).
Proof.
  induction r as [ | | c | | r1 IH1 r2 IH2 | r1 IH1 r2 IH2 | q g r IH | r IH ];
    simpl; try reflexivity.
  - rewrite lit_matches_lower. now destruct (lit_matches c t).
  - now destruct (any_matches t).
  - rewrite nullable_lower, IH1, IH2. now destruct (nullable r1).
  - now rewrite IH1, IH2.
  - destruct q; simpl; now rewrite IH.
  - assumption.
Qed.

Lemma match_prefix_lower (s : str) :
  forall r, match_prefix (lower_re r) s = match_prefix r s.
Proof.
  induction s as [| t s IH]; intro r; simpl.
  - now rewrite nullable_lower.
  - now rewrite nullable_lower, deriv_lower, IH.
Qed.

(** Searching for a pattern and for its lower-case form is the same. *)
Lemma search_lower (r : re) (s : str) :
  search (lower_re r) s = search r s.
Proof.
  induction s as [| t s IH]; cbn [search].
  - now rewrite match_prefix_lower.
  - now rewrite match_prefix_lower, IH.
Qed.

Lemma fold_cat_lower (its : list re) :
  forall acc,
    fold_left (fun a it => Cat it a) (map lower_re its) (lower_re acc)
    = lower_re (fold_left (fun a it => Cat it a) its acc).
Proof.
  induction its as [| it its IH]; intro acc; simpl; [reflexivity |].
  exact (IH (Cat it acc)).
Qed.

Lemma fold_alt_lower (ps : list re) :
  forall acc,
    fold_left (fun a q => Alt q a) (map lower_re ps) (lower_re acc)
    = lower_re (fold_left (fun a q => Alt q a) ps acc).
Proof.
  induction ps as [| p ps IH]; intro acc; simpl; [reflexivity |].
  exact (IH (Alt p acc)).
Qed.

Lemma sequence_lower (its : list re) :
  sequence (map lower_re its) = lower_re (sequence its).
Proof. exact (fold_cat_lower its Eps). Qed.

Lemma close_lower (f : frame) : close (lower_frame f) = lower_re (close f).
Proof.
  unfold close, lower_frame. cbn [alts items].
  rewrite sequence_lower. unfold branch.
  apply fold_alt_lower.
Qed.

Lemma next_alt_lower (f : frame) :
  next_alt (lower_frame f) = lower_frame (next_alt f).
Proof.
  unfold next_alt, lower_frame. cbn [alts items map].
  now rewrite sequence_lower.
Qed.

Lemma push_group_lower (cur f : frame) :
  push (Group (close (lower_frame cur))) (lower_frame f)
  = lower_frame (push (Group (close cur)) f).
Proof.
  unfold push, lower_frame. cbn [alts items map lower_re].
  now rewrite <- close_lower.
Qed.

(** Parsing the lower-case form of a text gives the lower-case form of
    what parsing the text gives: the same error, or the same pattern up
    to the case of its literals. *)
Lemma parse_loop_lower (n : nat) :
  forall src cur stack,
    (List.length src <= n)%nat ->
    parse_loop (map unicode_tolower src) (lower_frame cur)
      (map lower_frame stack)
    = rmap lower_re (parse_loop src cur stack).
Proof.
  induction n as [| n IH]; intros src cur stack Hlen.
  - destruct src; [| simpl in Hlen; lia].
    destruct stack; simpl; [now rewrite close_lower | reflexivity].
  - destruct src as [| c rest].
    + destruct stack; simpl; [now rewrite close_lower | reflexivity].
    + simpl in Hlen. cbn [map parse_loop].
      rewrite !ch_is_lower by special. rewrite quant_of_lower.
      destruct (ch_is "|" c).
      { rewrite next_alt_lower. apply IH. lia. }
      destruct (ch_is "(" c).
      { destruct rest as [| d rest'].
        - exact (IH [] empty_frame (cur :: stack) ltac:(simpl; lia)).
        - cbn [map]. rewrite ch_is_lower by special.
          destruct (ch_is "?" d); [reflexivity |].
          exact (IH (d :: rest') empty_frame (cur :: stack) ltac:(lia)). }
      destruct (ch_is ")" c).
      { destruct stack as [| f stack']; [reflexivity |].
        cbn [map]. rewrite push_group_lower. apply IH. lia. }
      destruct (quant_of c) as [q |].
      { destruct cur as [al its]. destruct its as [| it its']; [reflexivity |].
        destruct rest as [| d rest'].
        - destruct it; cbn [items alts lower_frame map lower_re];
            try reflexivity;
            match goal with
            | |- _ = rmap _ (parse_loop [] ?f _) =>
                exact (IH [] f stack ltac:(simpl; lia))
            end.
        - destruct it; cbn [items alts lower_frame map lower_re];
            try reflexivity;
            rewrite !ch_is_lower by special;
            (destruct (ch_is "?" d);
             [ match goal with
               | |- _ = rmap _ (parse_loop rest' ?f _) =>
                   exact (IH rest' f stack ltac:(simpl in Hlen; lia))
               end
             | destruct (ch_is "+" d); [reflexivity |];
               match goal with
               | |- _ = rmap _ (parse_loop (d :: rest') ?f _) =>
                   exact (IH (d :: rest') f stack ltac:(lia))
               end ]). }
      destruct (ch_is "." c).
      { exact (IH rest (push Any cur) stack ltac:(lia)). }
      exact (IH rest (push (Lit c) cur) stack ltac:(lia)).
Qed.

Lemma compile_lower (p : str) :
  compile (map unicode_tolower p) = rmap lower_re (compile p).
Proof.
  unfold compile. rewrite in_fragment_lower.
  destruct (in_fragment p); [| reflexivity].
  exact (parse_loop_lower (List.length p) p empty_frame [] (le_n _)).
Qed.

End LowerCase.

Lemma nonempty_map (g : N -> N) (f : str) : nonempty (map g f) = nonempty f.
Proof. now destruct f. Qed.

Lemma factor_view_lower (f : str) :
  factor_view (map unicode_tolower f) = factor_view f.
Proof.
  rewrite !factor_view_cases, nonempty_map, compile_lower.
  destruct (nonempty f); [| reflexivity].
  destruct (Sre.compile f) as [r | e |]; cbn [rmap]; try reflexivity.
  do 3 f_equal. apply map_ext. intro s. apply search_lower.
Qed.

(** The view uses nothing of its environment but the filter text. *)
Lemma gestor_depends_on_filter (E E' : env) (w : world) :
  filtro E = filtro E' ->
  gestor_de_factores E w = gestor_de_factores E' w.
Proof. intro H. rewrite !gestor_run, H. reflexivity. Qed.

Lemma gestor_lower (f : str) (gf : graph_call -> option exn) (w : world) :
  gestor_de_factores (mk_env (map unicode_tolower f) gf) w
  = gestor_de_factores (mk_env f gf) w.
Proof.
  rewrite !gestor_run. cbn [filtro].
  now rewrite factor_view_lower, nonempty_map.
Qed.

(** Lower-casing a pattern changes neither whether it is one of the
    patterns described nor whether it compiles. *)
Lemma described_lower (f : str) :
  described (Sre.compile (map unicode_tolower f)) = described (Sre.compile f).
Proof. rewrite compile_lower. now destruct (Sre.compile f). Qed.

Lemma gestor_described (f : str) (gf : graph_call -> option exn) (w : world) :
  described (Sre.compile f) = true ->
  described (fst (gestor_de_factores (mk_env f gf) w)) = true.
Proof.
  intro H. rewrite gestor_run. cbn [filtro]. rewrite factor_view_cases.
  destruct (nonempty f); [| reflexivity].
  destruct (Sre.compile f) as [r | e |]; [| reflexivity | discriminate H].
  now destruct (mask_defined (map (Sre.search r) factor_names)) as [d ->].
Qed.

(** Within the pattern syntax described (literals, [.], [|], groups and
    the quantifiers [? * +]): two filter texts that differ only in letter
    case give the same run of the factor view, the same table shown or the
    same error.  Outside it this fails: [\d] and [\D] differ only in
    letter case. *)
Theorem filter_ignores_letter_case
  (f f' : str) (gf gf' : graph_call -> option exn) (w : world) :
  described (Sre.compile f) = true ->
  map unicode_tolower f = map unicode_tolower f' ->
  described (Sre.compile f') = true /\
  described (fst (gestor_de_factores (mk_env f gf) w)) = true /\
  gestor_de_factores (mk_env f gf) w = gestor_de_factores (mk_env f' gf') w.
Proof.
  intros Hd H.
  split; [now rewrite <- described_lower, <- H, described_lower |].
  split; [now apply gestor_described |].
  rewrite <- (gestor_lower f gf w), <- (gestor_lower f' gf' w), H.
  now apply gestor_depends_on_filter.
Qed.

Lemma filter_ignores_letter_case_witness :
  described (Sre.compile (py "GASOLINA")) = true /\
  gestor_de_factores (mk_env (py "GASOLINA") (fun _ => None)) (fresh true)
  = gestor_de_factores (mk_env (py "gasolina") (fun _ => None)) (fresh true).
Proof.
  split; [reflexivity |].
  exact (proj2 (proj2 (filter_ignores_letter_case (py "GASOLINA") (py "gasolina")
           (fun _ => None) (fun _ => None) (fresh true) eq_refl eq_refl))).
Defined.

(** ** When the factor view fails *)

(** When the factor view raises, whatever the pattern engine: the filter
    text is not empty and the exception is the one the engine raised on
    it.  Building the table, reading its name column and masking it never
    fail.  The table object has been created, but nothing of it is
    shown. *)
Theorem factor_view_fails_only_on_bad_pattern
  (eng : engine) (E : env) (w w' : world) (e : exn) :
  gestor_de_factores_by eng E w = (Raise e, w') ->
  nonempty (filtro E) = true /\
  eng (filtro E) = Raise e /\
  shown (page w') = shown (page w) /\
  store w' = store w ++ [factor_table] /\
  has_graphviz w' = has_graphviz w.
Proof.
  rewrite gestor_by_run.
  destruct (factor_view_by eng (filtro E)) as [d | e0 |] eqn:Hv.
  - discriminate.
  - intros [= <- <-].
    rewrite factor_view_by_cases in Hv.
    destruct (nonempty (filtro E)); [| discriminate].
    destruct (eng (filtro E)) as [test | e1 |] eqn:Hc.
    + destruct (mask_defined (map test factor_names)) as [d Hd].
      rewrite Hd in Hv. discriminate.
    + injection Hv as ->.
      split; [reflexivity |].
      split; [reflexivity |].
      cbn [page store has_graphviz].
      split; [| split; reflexivity].
      rewrite shown_app. cbn. now rewrite app_nil_r.
    + discriminate.
  - discriminate.
Qed.

Lemma factor_view_fails_only_on_bad_pattern_witness :
  exists e,
    fst (gestor_de_factores_by re_search
           (mk_env (py "a**") (fun _ => None)) (fresh true))
    = Raise e /\
    re_search (py "a**") = Raise e.
Proof.
  exists (Sre.error "multiple repeat").
  split; [vm_compute; reflexivity |].
  exact (proj1 (proj2 (factor_view_fails_only_on_bad_pattern
                  re_search
                  (mk_env (py "a**") (fun _ => None)) (fresh true)
                  (snd (gestor_de_factores_by re_search
                          (mk_env (py "a**") (fun _ => None)) (fresh true)))
                  (Sre.error "multiple repeat")
                  ltac:(vm_compute; reflexivity)))).
Defined.


(** ** Narrowing a search *)

Lemma plain_view (f : str) :
  nonempty f = true ->
  forallb plain f = true ->
  exists d,
    factor_view f = Ok d /\
    rows d
    = select (map (Sre.search (literal_pattern f)) factor_names)
        (rows factor_table).
Proof.
  intros Hne Hplain.
  destruct (mask_defined (map (Sre.search (literal_pattern f)) factor_names))
    as [d Hd].
  exists d. split.
  - now rewrite factor_view_cases, Hne, (compile_plain f Hplain).
  - now apply mask_rows.
Qed.

Lemma Forall2_app_split (A B : Type) (R : A -> B -> Prop) (l1 l2 : list A) :
  forall l, Forall2 R (l1 ++ l2) l ->
  exists m1 m2, l = m1 ++ m2 /\ Forall2 R l1 m1 /\ Forall2 R l2 m2.
Proof.
  induction l1 as [| a l1 IH]; intros l H; simpl in H.
  - exists [], l. repeat split; [constructor | assumption].
  - inversion H as [| ? b ? l' Hab Hrest]; subst.
    destruct (IH l' Hrest) as (m1 & m2 & -> & H1 & H2).
    exists (b :: m1), m2. repeat split; [now constructor | assumption].
Qed.

(** A text found in a name brings every stretch of itself along. *)
Lemma found_in_part (a p b x : str) :
  found_in (a ++ p ++ b) x -> found_in p x.
Proof.
  intros (pre & mid & post & -> & Hm).
  apply Forall2_app_split in Hm as (ma & mpb & -> & _ & Hpb).
  apply Forall2_app_split in Hpb as (mp & mb & -> & Hp & _).
  exists (pre ++ ma), mp, (mb ++ post). split; [| assumption].
  now rewrite <- !app_assoc.
Qed.

Lemma select_within (A : Type) (l : list A) :
  forall m1 m2, within m1 m2 -> subseq (select m1 l) (select m2 l).
Proof.
  induction l as [| a l IH]; intros m1 m2 H.
  - destruct H as [| [|] [|] ? ? _ _]; simpl; constructor.
  - destruct H as [| b1 b2 m1' m2' Hb H]; simpl; [constructor |].
    destruct b1, b2; simpl.
    + apply subseq_keep. now apply IH.
    + specialize (Hb eq_refl). discriminate.
    + apply subseq_skip. now apply IH.
    + now apply IH.
Qed.

Lemma within_maps (A : Type) (f g : A -> bool) (l : list A) :
  (forall a, In a l -> f a = true -> g a = true) ->
  within (map f l) (map g l).
Proof.
  induction l as [| a l IH]; intro H; simpl; constructor.
  - apply H. now left.
  - apply IH. intros b Hb. apply H. now right.
Qed.

(** Typing more never brings rows back: when a plain filter text is
    extended on either side, the rows shown for the longer text are among
    the rows shown for the shorter one, in the same order. *)
Theorem longer_filter_narrows (a p b : str) :
  nonempty p = true ->
  forallb plain (a ++ p ++ b) = true ->
  exists d_short d_long,
    shows p d_short /\
    shows (a ++ p ++ b) d_long /\
    subseq (rows d_long) (rows d_short).
Proof.
  intros Hne Hplain.
  assert (forallb plain p = true) as Hp.
  { rewrite !forallb_app in Hplain.
    apply andb_prop in Hplain as [_ Hpb].
    now apply andb_prop in Hpb as [Hp _]. }
  assert (nonempty (a ++ p ++ b) = true) as Hne'.
  { destruct a; [| reflexivity]. destruct p; [discriminate | reflexivity]. }
  destruct (plain_view p Hne Hp) as (ds & Hvs & Hrs).
  destruct (plain_view (a ++ p ++ b) Hne' Hplain) as (dl & Hvl & Hrl).
  exists ds, dl.
  split; [now apply shows_of_view |].
  split; [now apply shows_of_view |].
  rewrite Hrs, Hrl.
  apply select_within, within_maps.
  intros name _ Hfound.
  apply (plain_search_is_substring _ _ Hplain) in Hfound.
  apply (plain_search_is_substring _ _ Hp).
  exact (found_in_part a p b name Hfound).
Qed.

Lemma longer_filter_narrows_witness :
  exists d_short d_long,
    shows (py "a") d_short /\
    shows (py "papel") d_long /\
    subseq (rows d_long) (rows d_short).
Proof.
  exact (longer_filter_narrows (py "p") (py "a") (py "pel") eq_refl eq_refl).
Defined.

(** ** The decision-tree view in every case *)

Lemma first_fault_some (E : env) (calls : list graph_call) :
  forall n e,
    first_fault E calls = Some (n, e) ->
    exists c,
      nth_error calls n = Some c /\ graph_fault E c = Some e /\
      forall j c', (j < n)%nat -> nth_error calls j = Some c' ->
                   graph_fault E c' = None.
Proof.
  induction calls as [| c0 calls IH]; intros n e H; simpl in H.
  - discriminate.
  - destruct (graph_fault E c0) as [e0 |] eqn:H0.
    + injection H as <- <-. exists c0. repeat split; auto.
      intros j c' Hj. lia.
    + destruct (first_fault E calls) as [[m e1] |] eqn:Hf; [| discriminate].
      injection H as <- <-.
      destruct (IH m e1 eq_refl) as (c & Hn & He & Hbefore).
      exists c. repeat split; auto.
      intros [| j] c' Hj Hc'; simpl in Hc'.
      * now injection Hc' as <-.
      * apply (Hbefore j); [lia | assumption].
Qed.

Lemma first_fault_none_inv (E : env) (calls : list graph_call) :
  first_fault E calls = None ->
  forall c, In c calls -> graph_fault E c = None.
Proof.
  induction calls as [| c0 calls IH]; intros H c Hc; simpl in *.
  - destruct Hc.
  - destruct (graph_fault E c0) eqn:H0; [discriminate |].
    destruct (first_fault E calls) as [[m e1] |]; [discriminate |].
    destruct Hc as [<- | Hc]; auto.
Qed.

Lemma first_fault_bound (E : env) (calls : list graph_call) (n : nat) (e : exn) :
  first_fault E calls = Some (n, e) -> (n < List.length calls)%nat.
Proof.
  intro H. destruct (first_fault_some E calls n e H) as (c & Hn & _).
  apply nth_error_Some. congruence.
Qed.

Lemma first_fault_ext (E E' : env) (calls : list graph_call) :
  (forall c, In c calls -> graph_fault E c = graph_fault E' c) ->
  first_fault E calls = first_fault E' calls.
Proof.
  induction calls as [| c0 calls IH]; intro H; simpl; [reflexivity |].
  rewrite <- (H c0) by now left.
  rewrite IH; [reflexivity |]. intros c Hc. apply H. now right.
Qed.

(** The four ways a run of the view can go. *)
Lemma ingenieria_run (E : env) (w : world) :
  ingenieria_de_preguntas E w
  = if has_graphviz w then
      match first_fault E tree_calls with
      | None =>
          (Ok tt,
           mk_world true (store w)
             (page w ++ tree_header ++ [st_graphviz_chart the_tree]
              ++ tree_footer)
             (graph_calls w ++ tree_calls))
      | Some (n, e) =>
          if is_Exception (exn_class e) then
            (Ok tt,
             mk_world true (store w)
               (page w ++ tree_header ++ fallback_elements ++ tree_footer)
               (graph_calls w ++ firstn (S n) tree_calls))
          else
            (Raise e,
             mk_world true (store w) (page w ++ tree_header)
               (graph_calls w ++ firstn (S n) tree_calls))
      end
    else
      (Ok tt,
       mk_world false (store w)
         (page w ++ tree_header ++ text_elements ++ tree_footer)
         (graph_calls w)).
Proof.
  destruct (has_graphviz w) eqn:Hflag.
  - destruct (first_fault E tree_calls) as [[n e] |] eqn:Hf.
    + destruct (is_Exception (exn_class e)) eqn:He.
      * exact (fallback_run E w n e Hflag Hf He).
      * destruct w as [flag st pg gc]. simpl in Hflag. subst flag.
        cbv [ingenieria_de_preguntas bind emit read_flag try_except
             has_graphviz store page graph_calls].
        rewrite draw_tree_run, Hf, He.
        cbv [has_graphviz store page graph_calls tree_header].
        flatten_apps.
    + destruct w as [flag st pg gc]. simpl in Hflag. subst flag.
      cbv [ingenieria_de_preguntas bind emit read_flag try_except
           has_graphviz store page graph_calls].
      rewrite draw_tree_run, Hf.
      cbv [has_graphviz store page graph_calls tree_header tree_footer].
      flatten_apps.
  - now apply text_tree_run.
Qed.

Lemma added_app (A : Type) (p q : list A) : skipn (List.length p) (p ++ q) = q.
Proof. induction p; simpl; auto. Qed.

Lemma charts_app (p q : list element) : charts (p ++ q) = charts p ++ charts q.
Proof.
  induction p as [| e p IH]; simpl; [reflexivity |].
  destruct e; simpl; now rewrite ?IH.
Qed.

(** Whatever the flag and whatever the library does, as long as its
    failures are [Exception]s the view ends normally, and between its
    header and its footer it shows the chart, the fallback text or the
    textual tree. *)
Theorem tree_view_always_renders (E : env) (w : world) :
  (forall c e, In c tree_calls -> graph_fault E c = Some e ->
               is_Exception (exn_class e) = true) ->
  exists w' middle,
    ingenieria_de_preguntas E w = (Ok tt, w') /\
    page w' = page w ++ tree_header ++ middle ++ tree_footer /\
    (middle = [st_graphviz_chart the_tree] \/
     middle = fallback_elements \/
     middle = text_elements).
Proof.
  intro Hexc. rewrite ingenieria_run.
  destruct (has_graphviz w).
  - destruct (first_fault E tree_calls) as [[n e] |] eqn:Hf.
    + destruct (first_fault_some E tree_calls n e Hf) as (c & Hn & He & _).
      rewrite (Hexc c e (nth_error_In _ _ Hn) He).
      do 2 eexists. split; [reflexivity |]. split; [reflexivity | auto].
    + do 2 eexists. split; [reflexivity |]. split; [reflexivity | auto].
  - do 2 eexists. split; [reflexivity |]. split; [reflexivity | auto].
Qed.

Lemma tree_view_always_renders_witness :
  exists w',
    ingenieria_de_preguntas
      (mk_env []
         (fun c => match c with
                   | call_node _ _ _ => Some (mk_exn ValueError "bad label")
                   | _ => None
                   end))
      (fresh true)
    = (Ok tt, w').
Proof.
  destruct (tree_view_always_renders
              (mk_env []
                 (fun c => match c with
                           | call_node _ _ _ => Some (mk_exn ValueError "bad label")
                           | _ => None
                           end))
              (fresh true))
    as (w' & middle & Hrun & _).
  - intros c e _ Hc. destruct c; simpl in Hc; try discriminate.
    now injection Hc as <-.
  - exists w'. exact Hrun.
Defined.

(** The drawing calls are made in the order of the source and stop at
    the first one that fails: the calls recorded are a front part of the
    sixteen, every call before the last recorded one returned normally,
    and a chart is on the page only when all sixteen returned normally,
    in which case it is the finished tree. *)
Theorem drawing_stops_at_first_failure (E : env) (w : world) :
  exists k,
    (k <= 16)%nat /\
    graph_calls (snd (ingenieria_de_preguntas E w))
    = graph_calls w ++ firstn k tree_calls /\
    (forall j c, (S j < k)%nat -> nth_error tree_calls j = Some c ->
                 graph_fault E c = None) /\
    (charts (added (page w) (page (snd (ingenieria_de_preguntas E w)))) = []
     \/
     charts (added (page w) (page (snd (ingenieria_de_preguntas E w))))
     = [the_tree] /\
     k = 16%nat /\
     forall c, In c tree_calls -> graph_fault E c = None).
Proof.
  rewrite ingenieria_run. unfold added.
  destruct (has_graphviz w).
  - destruct (first_fault E tree_calls) as [[n e] |] eqn:Hf.
    + destruct (first_fault_some E tree_calls n e Hf) as (c & Hn & He & Hbefore).
      pose proof (first_fault_bound E tree_calls n e Hf) as Hb.
      change (List.length tree_calls) with 16%nat in Hb.
      exists (S n).
      destruct (is_Exception (exn_class e)); cbn [snd graph_calls page];
        rewrite added_app;
        (split; [lia |]); (split; [reflexivity |]);
        (split; [intros j c' Hj; apply Hbefore; lia |]);
        left; reflexivity.
    + exists 16%nat. cbn [snd graph_calls page]. rewrite added_app.
      split; [lia |]. split; [reflexivity |].
      split; [intros j c _ Hc;
              apply (first_fault_none_inv E tree_calls Hf);
              now apply nth_error_In with j |].
      right. split; [reflexivity |]. split; [reflexivity |].
      now apply first_fault_none_inv.
  - exists 0%nat. cbn [snd graph_calls page]. rewrite added_app.
    split; [lia |]. split; [now rewrite app_nil_r |].
    split; [intros j c Hj; lia |].
    left. reflexivity.
Qed.

(** The view uses nothing of its environment but what the sixteen
    drawing calls do. *)
Lemma ingenieria_depends_on_tree_calls (E E' : env) (w : world) :
  (forall c, In c tree_calls -> graph_fault E c = graph_fault E' c) ->
  ingenieria_de_preguntas E w = ingenieria_de_preguntas E' w.
Proof.
  intro H. rewrite !ingenieria_run, (first_fault_ext E E' tree_calls H).
  reflexivity.
Qed.

(** ** The script as a whole *)

Ltac route := cbv [vistas views nth String.eqb Ascii.eqb Bool.eqb]; reflexivity.

Lemma vistas_at (inp : input) (flag : bool) (i : nat) (l : string) :
  nth_error options i = Some l ->
  vistas inp flag l = nth i (views inp flag) (sret tt).
Proof.
  intro H.
  destruct i as [| [| [| [| i]]]]; cbn [nth_error options] in H;
    try (injection H as <-; route).
  destruct i; discriminate.
Qed.

(** Every option of the navigation radio reaches the view written for it:
    the labels offered and the labels tested agree, so no selection falls
    through the chain of tests. *)
Theorem every_option_has_its_view
  (inp : input) (flag : bool) (i : nat) (l : string) :
  nth_error options i = Some l ->
  vistas inp flag l = nth i (views inp flag) (sret tt).
Proof. exact (vistas_at inp flag i l). Qed.

Lemma every_option_has_its_view_witness :
  nth_error options 2 = Some "Ingeniería de Preguntas" /\
  vistas (mk_input None false None (Some 2%nat) (mk_env [] (fun _ => None)))
    true "Ingeniería de Preguntas"
  = nth 2 (views (mk_input None false None (Some 2%nat)
                    (mk_env [] (fun _ => None))) true) (sret tt).
Proof.
  split; [reflexivity |].
  exact (every_option_has_its_view
           (mk_input None false None (Some 2%nat) (mk_env [] (fun _ => None)))
           true 2 "Ingeniería de Preguntas" eq_refl).
Defined.

Ltac open_script :=
  cbv [script sidebar radio logo header sbind slift put sret picked
       import_outcome logo_exists image_fault choice].

(** How a run of the script ends, in terms of how the selected view
    ends. *)
Lemma script_result (inp : input) :
  fst (script inp)
  = match import_graphviz (import_outcome inp) with
    | Ok flag =>
        let view :=
          match nth_error options (picked inp) with
          | Some l => fst (vistas inp flag l)
          | None => Unmodelled
          end in
        if logo_exists inp then
          match image_fault inp with
          | Some e => Raise e
          | None => view
          end
        else view
    | Raise e => Raise e
    | Unmodelled => Unmodelled
    end.
Proof.
  destruct inp as [imp lg img ch E]. open_script.
  destruct (import_graphviz imp) as [flag | e |]; try reflexivity.
  destruct lg; [destruct img as [e |]; [reflexivity |] |];
    destruct ch as [i |]; cbv zeta;
    match goal with
    | |- _ = match nth_error options ?i with _ => _ end =>
        destruct (nth_error options i) as [l |]; [| reflexivity];
        match goal with
        | |- context [vistas ?a ?b l] => now destruct (vistas a b l)
        end
    end.
Qed.

Lemma run_view_fst (flag : bool) (m : M unit) :
  fst (run_view flag m) = fst (m (mk_world flag [] [] [])).
Proof. unfold run_view. now destruct (m (mk_world flag [] [] [])). Qed.

Lemma panel_ok (flag : bool) :
  fst (panel_de_control (mk_world flag [] [] [])) = Ok tt.
Proof. vm_compute. reflexivity. Qed.

Lemma reportes_ok : fst reportes_iso_14064 = Ok tt.
Proof. vm_compute. reflexivity. Qed.

Lemma ingenieria_raises_inv (E : env) (w : world) (e : exn) :
  fst (ingenieria_de_preguntas E w) = Raise e ->
  has_graphviz w = true /\
  is_Exception (exn_class e) = false /\
  exists n, first_fault E tree_calls = Some (n, e).
Proof.
  rewrite ingenieria_run.
  destruct (has_graphviz w); [| discriminate].
  destruct (first_fault E tree_calls) as [[n e1] |]; [| discriminate].
  destruct (is_Exception (exn_class e1)) eqn:He; [discriminate |].
  intros [= <-]. eauto.
Qed.

Lemma selected_view_result (inp : input) (flag : bool) :
  match nth_error options (picked inp) with
  | Some l => fst (vistas inp flag l)
  | None => Unmodelled
  end
  = match picked inp with
    | 0%nat => Ok tt
    | 1%nat => fst (gestor_de_factores (widgets inp) (mk_world flag [] [] []))
    | 2%nat =>
        fst (ingenieria_de_preguntas (widgets inp) (mk_world flag [] [] []))
    | 3%nat => Ok tt
    | _ => Unmodelled
    end.
Proof.
  destruct (picked inp) as [| [| [| [| i]]]]; cbn [nth_error options].
  - rewrite (vistas_at inp flag 0 "Panel de Control" eq_refl).
    cbn [nth views]. now rewrite run_view_fst, panel_ok.
  - rewrite (vistas_at inp flag 1 "Gestor de Factores" eq_refl).
    cbn [nth views]. now rewrite run_view_fst.
  - rewrite (vistas_at inp flag 2 "Ingeniería de Preguntas" eq_refl).
    cbn [nth views]. now rewrite run_view_fst.
  - rewrite (vistas_at inp flag 3 "Reportes ISO 14064" eq_refl).
    cbn [nth views]. exact reportes_ok.
  - now destruct i.
Qed.

(** How a run ends, read off the inputs. *)
Lemma script_ends (inp : input) :
  fst (script inp)
  = match import_graphviz (import_outcome inp) with
    | Ok flag =>
        match (if logo_exists inp then image_fault inp else None) with
        | Some e => Raise e
        | None =>
            match picked inp with
            | 0%nat => Ok tt
            | 1%nat =>
                fst (gestor_de_factores (widgets inp) (mk_world flag [] [] []))
            | 2%nat =>
                fst (ingenieria_de_preguntas (widgets inp)
                       (mk_world flag [] [] []))
            | 3%nat => Ok tt
            | _ => Unmodelled
            end
        end
    | Raise e => Raise e
    | Unmodelled => Unmodelled
    end.
Proof.
  rewrite script_result.
  destruct (import_graphviz (import_outcome inp)) as [flag | e |];
    try reflexivity.
  cbv zeta. rewrite selected_view_result.
  destruct (logo_exists inp); [| reflexivity].
  now destruct (image_fault inp).
Qed.

(** The control panel and the report page always render: when the import
    ended with the flag set either way and the logo made no trouble, a run
    with one of these two pages selected ends normally, whatever the
    filter box holds and whatever the drawing library would do. *)
Theorem panel_and_reports_always_render (inp : input) (flag : bool) :
  import_graphviz (import_outcome inp) = Ok flag ->
  logo_exists inp = false \/ image_fault inp = None ->
  picked inp = 0%nat \/ picked inp = 3%nat ->
  fst (script inp) = Ok tt.
Proof.
  intros Himp Hlogo Hpage.
  rewrite script_ends, Himp.
  assert ((if logo_exists inp then image_fault inp else None) = None) as ->.
  { destruct Hlogo as [-> | ->]; [reflexivity | now destruct (logo_exists inp)]. }
  now destruct Hpage as [-> | ->].
Qed.

Lemma panel_and_reports_always_render_witness :
  fst (script (mk_input (Some (mk_exn ModuleNotFoundError "graphviz")) true
                 None (Some 3%nat)
                 (mk_env (py "(") (fun _ => Some (mk_exn KeyboardInterrupt "stop")))))
  = Ok tt.
Proof.
  exact (panel_and_reports_always_render
           (mk_input (Some (mk_exn ModuleNotFoundError "graphviz")) true
              None (Some 3%nat)
              (mk_env (py "(") (fun _ => Some (mk_exn KeyboardInterrupt "stop"))))
           false eq_refl (or_intror eq_refl) (or_intror eq_refl)).
Defined.

Lemma script_ext (inp inp' : input) :
  import_outcome inp = import_outcome inp' ->
  logo_exists inp = logo_exists inp' ->
  image_fault inp = image_fault inp' ->
  choice inp = choice inp' ->
  (forall flag l, nth_error options (picked inp) = Some l ->
                  vistas inp flag l = vistas inp' flag l) ->
  script inp = script inp'.
Proof.
  destruct inp as [imp lg img ch E], inp' as [imp' lg' img' ch' E'].
  cbn [import_outcome logo_exists image_fault choice].
  intros <- <- <- <- Hv. revert Hv. open_script.
  intro Hv.
  destruct (import_graphviz imp) as [flag | e |]; try reflexivity.
  destruct lg; [destruct img as [e |]; [reflexivity |] |];
    destruct ch as [i |]; cbv zeta;
    match goal with
    | |- context [nth_error options ?i] =>
        destruct (nth_error options i) as [l |] eqn:Hl; [| reflexivity];
        now rewrite (Hv flag l eq_refl)
    end.
Qed.

(** What is typed into the filter box matters on the factor page only,
    and what the drawing library does matters on the decision-tree page
    only, and there only for the sixteen calls of the diagram: two runs
    that agree on the import, the logo, the selection and these give the
    same screen. *)
Theorem only_the_selected_page_reads_its_inputs (inp inp' : input) :
  import_outcome inp = import_outcome inp' ->
  logo_exists inp = logo_exists inp' ->
  image_fault inp = image_fault inp' ->
  choice inp = choice inp' ->
  (picked inp = 1%nat -> filtro (widgets inp) = filtro (widgets inp')) ->
  (picked inp = 2%nat ->
   forall c, In c tree_calls ->
             graph_fault (widgets inp) c = graph_fault (widgets inp') c) ->
  script inp = script inp'.
Proof.
  intros Himp Hlg Himg Hch Hfilter Hgraph.
  apply script_ext; try assumption.
  intros flag l Hl.
  destruct (picked inp) as [| [| [| [| i]]]] eqn:Hp;
    cbn [nth_error options] in Hl.
  - injection Hl as <-.
    rewrite (vistas_at inp flag 0 _ eq_refl), (vistas_at inp' flag 0 _ eq_refl).
    cbn [nth views]. reflexivity.
  - injection Hl as <-.
    rewrite (vistas_at inp flag 1 _ eq_refl), (vistas_at inp' flag 1 _ eq_refl).
    cbn [nth views]. unfold run_view.
    now rewrite (gestor_depends_on_filter _ _ _ (Hfilter eq_refl)).
  - injection Hl as <-.
    rewrite (vistas_at inp flag 2 _ eq_refl), (vistas_at inp' flag 2 _ eq_refl).
    cbn [nth views]. unfold run_view.
    now rewrite (ingenieria_depends_on_tree_calls _ _ _ (Hgraph eq_refl)).
  - injection Hl as <-.
    rewrite (vistas_at inp flag 3 _ eq_refl), (vistas_at inp' flag 3 _ eq_refl).
    cbn [nth views]. reflexivity.
  - destruct i; discriminate.
Qed.

Lemma only_the_selected_page_reads_its_inputs_witness :
  script (mk_input None false None None
            (mk_env (py "(") (fun _ => Some (mk_exn RuntimeError "dot"))))
  = script (mk_input None false None None (mk_env [] (fun _ => None))).
Proof.
  apply only_the_selected_page_reads_its_inputs;
    try reflexivity; cbn [picked choice]; intro H; discriminate H.
Defined.

(** ** The file from its first line *)

Ltac open_app :=
  cbv [app_py imports sidebar radio logo header sbind slift put sret picked
       import_outcome logo_exists image_fault choice].

Lemma vistas_by_at (eng : engine) (inp : input) (flag : bool) :
  vistas_by eng inp flag "Panel de Control" = run_view flag panel_de_control /\
  vistas_by eng inp flag "Gestor de Factores"
  = run_view flag (gestor_de_factores_by eng (widgets inp)) /\
  vistas_by eng inp flag "Ingeniería de Preguntas"
  = run_view flag (ingenieria_de_preguntas (widgets inp)) /\
  vistas_by eng inp flag "Reportes ISO 14064" = reportes_iso_14064.
Proof.
  repeat split; cbv [vistas_by String.eqb Ascii.eqb Bool.eqb]; reflexivity.
Qed.

Lemma app_py_result (eng : engine) (fault : option exn) (inp : input) :
  fst (app_py eng fault inp)
  = match fault with
    | Some e => Raise e
    | None =>
        match import_graphviz (import_outcome inp) with
        | Ok flag =>
            let view :=
              match nth_error options (picked inp) with
              | Some l => fst (vistas_by eng inp flag l)
              | None => Unmodelled
              end in
            if logo_exists inp then
              match image_fault inp with
              | Some e => Raise e
              | None => view
              end
            else view
        | Raise e => Raise e
        | Unmodelled => Unmodelled
        end
    end.
Proof.
  destruct inp as [imp lg img ch E]. open_app.
  destruct fault as [e0 |]; [reflexivity |].
  destruct (import_graphviz imp) as [flag | e |]; try reflexivity.
  destruct lg; [destruct img as [e |]; [reflexivity |] |];
    destruct ch as [i |]; cbv zeta;
    match goal with
    | |- _ = match nth_error options ?i with _ => _ end =>
        destruct (nth_error options i) as [l |]; [| reflexivity];
        match goal with
        | |- context [vistas_by ?g ?a ?b l] => now destruct (vistas_by g a b l)
        end
    end.
Qed.

Lemma selected_view_by_result (eng : engine) (inp : input) (flag : bool) :
  match nth_error options (picked inp) with
  | Some l => fst (vistas_by eng inp flag l)
  | None => Unmodelled
  end
  = match picked inp with
    | 0%nat => Ok tt
    | 1%nat =>
        fst (gestor_de_factores_by eng (widgets inp) (mk_world flag [] [] []))
    | 2%nat =>
        fst (ingenieria_de_preguntas (widgets inp) (mk_world flag [] [] []))
    | 3%nat => Ok tt
    | _ => Unmodelled
    end.
Proof.
  destruct (vistas_by_at eng inp flag) as (H0 & H1 & H2 & H3).
  destruct (picked inp) as [| [| [| [| i]]]]; cbn [nth_error options].
  - rewrite H0. now rewrite run_view_fst, panel_ok.
  - rewrite H1. now rewrite run_view_fst.
  - rewrite H2. now rewrite run_view_fst.
  - rewrite H3. exact reportes_ok.
  - now destruct i.
Qed.

(** How a run of the file ends, read off the inputs. *)
Lemma app_py_ends (eng : engine) (fault : option exn) (inp : input) :
  fst (app_py eng fault inp)
  = match fault with
    | Some e => Raise e
    | None =>
        match import_graphviz (import_outcome inp) with
        | Ok flag =>
            match (if logo_exists inp then image_fault inp else None) with
            | Some e => Raise e
            | None =>
                match picked inp with
                | 0%nat => Ok tt
                | 1%nat =>
                    fst (gestor_de_factores_by eng (widgets inp)
                           (mk_world flag [] [] []))
                | 2%nat =>
                    fst (ingenieria_de_preguntas (widgets inp)
                           (mk_world flag [] [] []))
                | 3%nat => Ok tt
                | _ => Unmodelled
                end
            end
        | Raise e => Raise e
        | Unmodelled => Unmodelled
        end
    end.
Proof.
  rewrite app_py_result.
  destruct fault as [e0 |]; [reflexivity |].
  destruct (import_graphviz (import_outcome inp)) as [flag | e |];
    try reflexivity.
  cbv zeta. rewrite selected_view_by_result.
  destruct (logo_exists inp); [| reflexivity].
  now destruct (image_fault inp).
Qed.

Lemma gestor_by_raises_inv (eng : engine) (E : env) (w : world) (e : exn) :
  fst (gestor_de_factores_by eng E w) = Raise e ->
  nonempty (filtro E) = true /\ eng (filtro E) = Raise e.
Proof.
  rewrite gestor_by_run, factor_view_by_cases.
  destruct (nonempty (filtro E)); [| discriminate].
  destruct (eng (filtro E)) as [test | e1 |].
  - destruct (mask_defined (map test factor_names)) as [d ->].
    discriminate.
  - intros [= ->]. auto.
  - discriminate.
Qed.

Lemma vistas_by_re (inp : input) (flag : bool) (l : string) :
  vistas_by re_search inp flag l = vistas inp flag l.
Proof.
  unfold vistas_by, vistas.
  destruct (String.eqb l "Panel de Control"); [reflexivity |].
  destruct (String.eqb l "Gestor de Factores"); [| reflexivity].
  unfold run_view. now rewrite gestor_by_re.
Qed.

Lemma sbind_ext {A B} (m : Top A) (k k' : A -> Top B) :
  (forall a, k a = k' a) -> sbind m k = sbind m k'.
Proof. intro H. destruct m as [[a | e |] ws]; simpl; now rewrite ?H. Qed.

Lemma sbind_sret {A B} (a : A) (k : A -> Top B) : sbind (sret a) k = k a.
Proof. unfold sbind, sret. now destruct (k a). Qed.

(** With the engine described in [Sre] and the first five imports done,
    the file runs as the script studied above. *)
Lemma app_py_script (inp : input) : app_py re_search None inp = script inp.
Proof.
  unfold app_py, script, imports. rewrite sbind_sret.
  repeat (apply sbind_ext; intro).
  apply vistas_by_re.
Qed.

(** Taking the widget calls on the script's own data as given, a run of
    the file can end in an exception in five ways only, whatever pattern
    engine is behind the filter: one of the imports of lines 1-5 fails;
    the import of the drawing library fails with something else than an
    import error; the logo file is there and showing it fails; the factor
    page is selected and the engine raises on the filter text; or the
    decision-tree page is selected, the library was imported, and a
    drawing call fails with an exception outside [Exception]. *)
Theorem script_fails_only_when
  (eng : engine) (fault : option exn) (inp : input) (e : exn) :
  fst (app_py eng fault inp) = Raise e ->
  fault = Some e \/
  (import_outcome inp = Some e /\ is_ImportError (exn_class e) = false) \/
  (logo_exists inp = true /\ image_fault inp = Some e) \/
  (picked inp = 1%nat /\
   nonempty (filtro (widgets inp)) = true /\
   eng (filtro (widgets inp)) = Raise e) \/
  (picked inp = 2%nat /\
   import_outcome inp = None /\
   is_Exception (exn_class e) = false /\
   exists n, first_fault (widgets inp) tree_calls = Some (n, e)).
Proof.
  rewrite app_py_ends.
  destruct fault as [e0 |]; [intros [= ->]; now left |].
  intro H. right. revert H.
  assert (forall flag,
            (flag = true -> import_outcome inp = None) ->
            match picked inp with
            | 0%nat => Ok tt
            | 1%nat =>
                fst (gestor_de_factores_by eng (widgets inp)
                       (mk_world flag [] [] []))
            | 2%nat =>
                fst (ingenieria_de_preguntas (widgets inp)
                       (mk_world flag [] [] []))
            | 3%nat => Ok tt
            | _ => Unmodelled
            end = Raise e ->
            (picked inp = 1%nat /\
             nonempty (filtro (widgets inp)) = true /\
             eng (filtro (widgets inp)) = Raise e) \/
            (picked inp = 2%nat /\
             import_outcome inp = None /\
             is_Exception (exn_class e) = false /\
             exists n, first_fault (widgets inp) tree_calls = Some (n, e)))
    as Hview.
  { intros flag Hflag.
    destruct (picked inp) as [| [| [| [| i]]]]; intro Hv.
    - discriminate Hv.
    - apply gestor_by_raises_inv in Hv as [Hne Hc].
      left. repeat split; auto.
    - apply ingenieria_raises_inv in Hv as (Hg & He & Hn).
      right. repeat split; auto.
    - discriminate Hv.
    - discriminate Hv. }
  destruct (import_outcome inp) as [e0 |] eqn:Himp; cbn [import_graphviz].
  - destruct (is_ImportError (exn_class e0)) eqn:Hie.
    + destruct (logo_exists inp) eqn:Hlg.
      * destruct (image_fault inp) as [e1 |] eqn:Himg.
        -- intros [= ->]. auto.
        -- intro Hv. right. right.
           apply (Hview false); [discriminate | exact Hv].
      * intro Hv. right. right.
        apply (Hview false); [discriminate | exact Hv].
    + intros [= ->]. auto.
  - destruct (logo_exists inp) eqn:Hlg.
    + destruct (image_fault inp) as [e1 |] eqn:Himg.
      * intros [= ->]. auto.
      * intro Hv. right. right. apply (Hview true); [reflexivity | exact Hv].
    + intro Hv. right. right. apply (Hview true); [reflexivity | exact Hv].
Qed.

Lemma script_fails_only_when_witness :
  fst (app_py
         (fun _ => Raise (mk_exn re_error "unterminated character set"))
         None
         (mk_input None false None (Some 1%nat)
            (mk_env (py "[") (fun _ => None))))
  = Raise (mk_exn re_error "unterminated character set") /\
  nonempty (py "[") = true.
Proof.
  split; [vm_compute; reflexivity |].
  destruct (script_fails_only_when
              (fun _ => Raise (mk_exn re_error "unterminated character set"))
              None
              (mk_input None false None (Some 1%nat)
                 (mk_env (py "[") (fun _ => None)))
              (mk_exn re_error "unterminated character set")
              ltac:(vm_compute; reflexivity))
    as [H | [[H _] | [[H _] | [(_ & H & _) | (H & _)]]]];
    [discriminate H | discriminate H | discriminate H | exact H
    | discriminate H].
Defined.
